(** * Verification of the approval workflow, the session registry and the
      record serializer of [main.py]

    The development is a shallow embedding of the request handlers of
    [main.py].  The relational store is a record of row lists, one per
    table; a psycopg2 connection is a working copy of the store next to
    the committed one, and every round trip to the server may raise,
    following a script of outcomes supplied by the environment.  The
    process-local session map [active_sessions] is a [gmap] keyed by
    e-mail address.  The content endpoints (blogs, bills, letters), the
    dashboard, [ping] and the configuration read from the environment
    follow, on the same model of a connection. *)

From Stdlib Require Import ZArith NArith String Ascii List Bool Lia.
From Stdlib Require Import DecimalString SpecFloat.
From stdpp Require Import base option strings gmap.

Local Open Scope Z_scope.
Local Open Scope string_scope.

(* ===================================================================== *)
(** * Values exchanged with the store *)
(* ===================================================================== *)

(** [datetime.date]: the three fields [isoformat] reads. *)
Record date := Date { year : N; month : N; day : N }.

(** [datetime.datetime] as the database adapter builds it: the calendar
    fields, the time of day, and [utcoffset()] in seconds ([None] for a
    naive value, as a [timestamp] column yields). *)
Record datetime := Datetime {
  dt_date : date;
  hour : N; minute : N; second : N; microsecond : N;
  utcoffset : option Z
}.

(** [decimal.Decimal] as a [numeric] column yields it: sign, coefficient
    and exponent of a finite number, an infinity, or the quiet NaN. *)
Inductive Decimal :=
| DecFinite (sign : bool) (coefficient : N) (exponent : Z)
| DecInfinity (sign : bool)
| DecNaN.

(** Python [float]: IEEE 754 binary64, as [spec_float] with 53 bits of
    precision and [emax = 1024]. *)
Definition float := spec_float.
Definition prec64 : Z := 53.
Definition emax64 : Z := 1024.

(** A value of a row cell, as [RealDictCursor] hands it over. *)
Inductive value :=
| VNone
| VBool (b : bool)
| VInt (n : Z)
| VFloat (f : float)
| VStr (s : string)
| VDecimal (d : Decimal)
| VDate (d : date)
| VDatetime (d : datetime).

(* ===================================================================== *)
(** * Tables *)
(* ===================================================================== *)

(** [users]: read only by [get_user_by_email]; [password] is read with
    [user.get("password")], which is [None] for a NULL column. *)
Record user_row := UserRow {
  user_id : Z;
  user_email : string;
  user_password : option string
}.

(** [enquiries], columns as [add_enquiry] and [get_enquiries] name them. *)
Record enquiry_row := EnquiryRow {
  enq_id : Z;
  enq_name : string;
  enq_email : string;
  enq_phone : option string;
  enq_service : option string;
  enq_budget : string;
  enq_timeline : string;
  enq_idea : string;
  enq_description : string;
  enq_reference : option string;
  enq_consent : bool;
  enq_submitted_at : datetime
}.

(** [quickcontact], columns as [add_quickcontact] and [get_quickcontacts]
    name them. *)
Record quickcontact_row := QuickContactRow {
  qc_id : Z;
  qc_name : string;
  qc_phone : string;
  qc_subject : option string;
  qc_message : option string;
  qc_created_at : datetime
}.

(** [active_clients], columns as the two INSERT statements and
    [get_active_clients] name them.  A column that receives a nullable
    request field is an [option]. *)
Record active_client_row := ActiveClientRow {
  ac_id : Z;
  ac_client_name : option string;
  ac_contact_email : option string;
  ac_contact_phone : option string;
  ac_project_title : string;
  ac_project_description : string;
  ac_delivery_date : date;
  ac_advance_token : string;
  ac_project_manager : string;
  ac_project_reference : option string;
  ac_status : string;
  ac_created_at : datetime;
  ac_updated_at : datetime
}.

(** The part of the store the workflow and the login touch. *)
Record db := Db {
  users : list user_row;
  enquiries : list enquiry_row;
  quickcontact : list quickcontact_row;
  active_clients : list active_client_row
}.

(** What the server fills in for a new [active_clients] row: the key and
    the two timestamps. *)
Record generated := Generated { gen_id : Z; gen_now : datetime }.

(** Modelled from the spec: the table declaration of [active_clients] is
    not part of the source; the default of its [status] column is the
    [active] of "insert one ActiveClient row ... with status active". *)
Definition active_clients_status_default : string := "active".

(* ===================================================================== *)
(** * Connections, transactions and exceptions *)
(* ===================================================================== *)

(** The two kinds of exception the handlers tell apart:
    [HTTPException(status_code, detail)] and every other [Exception],
    carried with its [str(e)]. *)
Inductive exn :=
| HTTPException (status_code : Z) (detail : string)
| Error (msg : string).

(** The outcome of one round trip to the database server. *)
Inductive outcome := Ok | Fails (msg : string).

(** The world outside the handler: the committed store and the outcomes of
    the round trips still to come (none left: they all succeed). *)
Record world := World { storage : db; faults : list outcome }.

(** A psycopg2 connection in its default mode: the first statement opens a
    transaction on a working copy, [commit] publishes it, [rollback]
    drops it. *)
Record conn := Conn {
  committed : db;
  working : db;
  in_transaction : bool;
  pending : list outcome
}.

Definition next_outcome (fs : list outcome) : outcome * list outcome :=
  match fs with
  | [] => (Ok, [])
  | o :: rest => (o, rest)
  end.

(** Code running on a connection: it may raise, and the connection lives
    on either way. *)
Definition cur (A : Type) : Type := conn -> (exn + A) * conn.

Definition cur_ret {A} (a : A) : cur A := fun c => (inr a, c).

Definition cur_bind {A B} (m : cur A) (k : A -> cur B) : cur B :=
  fun c =>
    match m c with
    | (inl e, c') => (inl e, c')
    | (inr a, c') => k a c'
    end.

Definition raise {A} (e : exn) : cur A := fun c => (inl e, c).

Declare Scope cur_scope.
Delimit Scope cur_scope with cur.
Notation "x <- m ;; k" := (cur_bind m (fun x => k))
  (at level 100, m at next level, right associativity) : cur_scope.
Notation "m ;;; k" := (cur_bind m (fun _ => k))
  (at level 100, right associativity) : cur_scope.

(** [cur.execute(stmt)]: one round trip; the statement runs on the working
    copy of the open transaction. *)
Definition execute {A} (stmt : db -> A * db) : cur A :=
  fun c =>
    let '(o, rest) := next_outcome (pending c) in
    match o with
    | Fails msg =>
        (inl (Error msg),
         {| committed := committed c; working := working c;
            in_transaction := true; pending := rest |})
    | Ok =>
        let '(a, d) := stmt (working c) in
        (inr a,
         {| committed := committed c; working := d;
            in_transaction := true; pending := rest |})
    end.

(** [conn.commit()]: a round trip only when a transaction is open. *)
Definition commit : cur unit :=
  fun c =>
    if in_transaction c then
      let '(o, rest) := next_outcome (pending c) in
      match o with
      | Fails msg =>
          (inl (Error msg),
           {| committed := committed c; working := working c;
              in_transaction := true; pending := rest |})
      | Ok =>
          (inr tt,
           {| committed := working c; working := working c;
              in_transaction := false; pending := rest |})
      end
    else (inr tt, c).

(** [conn.rollback()]: likewise a round trip only when a transaction is
    open; the working copy is dropped. *)
Definition rollback : cur unit :=
  fun c =>
    if in_transaction c then
      let '(o, rest) := next_outcome (pending c) in
      match o with
      | Fails msg =>
          (inl (Error msg),
           {| committed := committed c; working := working c;
              in_transaction := true; pending := rest |})
      | Ok =>
          (inr tt,
           {| committed := committed c; working := committed c;
              in_transaction := false; pending := rest |})
      end
    else (inr tt, c).

(** A handler: code that runs against the world. *)
Definition io (A : Type) : Type := world -> (exn + A) * world.

(** [with get_db() as conn: body].  Connecting is a round trip.  Leaving
    the block calls [commit] when the body returned and [rollback] when it
    raised; an exception of either call replaces the result of the body.
    What the world keeps is the committed copy. *)
Definition with_get_db {A} (body : cur A) : io A :=
  fun w =>
    let '(o, rest) := next_outcome (faults w) in
    match o with
    | Fails msg => (inl (Error msg), {| storage := storage w; faults := rest |})
    | Ok =>
        let c0 := {| committed := storage w; working := storage w;
                     in_transaction := false; pending := rest |} in
        let '(r, c) := body c0 in
        let '(r', c') :=
          match r with
          | inr a => (commit ;;; cur_ret a)%cur c
          | inl e => (rollback ;;; raise e)%cur c
          end in
        (r', {| storage := committed c'; faults := pending c' |})
    end.

(** [except HTTPException: raise] followed by
    [except Exception as e: raise HTTPException(500, prefix + str(e))]. *)
Definition reraise_as_500 {A} (prefix : string) (m : io A) : io A :=
  fun w =>
    match m w with
    | (inl (Error msg), w') => (inl (HTTPException 500 (prefix +:+ msg)), w')
    | r => r
    end.

(* ===================================================================== *)
(** * Requests and replies *)
(* ===================================================================== *)

(** [ProjectApproveRequest]: the enquiry as the client read it, and the
    project fields. *)
Record ProjectApproveRequest := {
  par_name : option string;
  par_email : option string;
  par_phone : option string;
  par_service : option string;
  par_budget : option string;
  par_timeline : option string;
  par_idea : option string;
  par_description : option string;
  par_reference : option string;
  par_consent : option bool;
  par_submitted_at : datetime;
  par_delivery_date : date;
  par_billing_details : string;
  par_project_title : string;
  par_project_description : string;
  par_project_reference : option string;
  par_project_manager : string
}.

(** [QuickContactApproveRequest]. *)
Record QuickContactApproveRequest := {
  qar_name : option string;
  qar_phone : option string;
  qar_project_title : string;
  qar_project_description : string;
  qar_delivery_date : date;
  qar_billing_details : string;
  qar_project_manager : string;
  qar_reference : option string
}.

(** The body [{"status": ..., "message": ...}] of a successful reply. *)
Record MessageResponse := { status : string; message : string }.

(* ===================================================================== *)
(** * The SQL statements of the workflow *)
(* ===================================================================== *)

(** [cur.fetchone()]: the first row of the result set, or [None]. *)
Definition fetchone {A} (rows : list A) : option A := head rows.

(** [SELECT 1 FROM enquiries WHERE id = %s] *)
Definition select_1_from_enquiries (id : Z) (d : db) : list Z * db :=
  (map (fun _ => 1) (List.filter (fun r => (enq_id r =? id)%Z) (enquiries d)), d).

(** [DELETE FROM enquiries WHERE id = %s] *)
Definition delete_from_enquiries (id : Z) (d : db) : unit * db :=
  (tt, {| users := users d;
          enquiries := List.filter (fun r => negb (enq_id r =? id)%Z) (enquiries d);
          quickcontact := quickcontact d;
          active_clients := active_clients d |}).

(** [SELECT 1 FROM quickcontact WHERE id = %s] *)
Definition select_1_from_quickcontact (id : Z) (d : db) : list Z * db :=
  (map (fun _ => 1) (List.filter (fun r => (qc_id r =? id)%Z) (quickcontact d)), d).

(** [SELECT id, name, phone FROM quickcontact WHERE id = %s] *)
Definition select_contact_info (id : Z) (d : db)
  : list (Z * string * string) * db :=
  (map (fun r => (qc_id r, qc_name r, qc_phone r))
       (List.filter (fun r => (qc_id r =? id)%Z) (quickcontact d)), d).

(** [DELETE FROM quickcontact WHERE id = %s] *)
Definition delete_from_quickcontact (id : Z) (d : db) : unit * db :=
  (tt, {| users := users d;
          enquiries := enquiries d;
          quickcontact := List.filter (fun r => negb (qc_id r =? id)%Z) (quickcontact d);
          active_clients := active_clients d |}).

(** [SELECT 1 FROM active_clients WHERE id = %s] *)
Definition select_1_from_active_clients (id : Z) (d : db) : list Z * db :=
  (map (fun _ => 1) (List.filter (fun r => (ac_id r =? id)%Z) (active_clients d)), d).

(** [INSERT INTO active_clients (...) VALUES (...)]: the new row goes to
    the end of the table. *)
Definition insert_into_active_clients (row : active_client_row) (d : db)
  : unit * db :=
  (tt, {| users := users d;
          enquiries := enquiries d;
          quickcontact := quickcontact d;
          active_clients := active_clients d ++ [row] |}).

(** The row of the INSERT of [approve_enquiry].  The column list has no
    [project_reference] and no [status]: the first stays NULL, the second
    takes the column default. *)
Definition enquiry_client_row (g : generated) (project_data : ProjectApproveRequest)
  : active_client_row :=
  {| ac_id := gen_id g;
     ac_client_name := par_name project_data;
     ac_contact_email := par_email project_data;
     ac_contact_phone := par_phone project_data;
     ac_project_title := par_project_title project_data;
     ac_project_description := par_project_description project_data;
     ac_delivery_date := par_delivery_date project_data;
     ac_advance_token := par_billing_details project_data;
     ac_project_manager := par_project_manager project_data;
     ac_project_reference := None;
     ac_status := active_clients_status_default;
     ac_created_at := gen_now g;
     ac_updated_at := gen_now g |}.

(** The row of the INSERT of [approve_quickcontact].  The column list has
    no [contact_email] and no [status]. *)
Definition quickcontact_client_row (g : generated)
    (contact_info : Z * string * string)
    (project_data : QuickContactApproveRequest) : active_client_row :=
  let '(_, name, phone) := contact_info in
  {| ac_id := gen_id g;
     ac_client_name := Some name;
     ac_contact_email := None;
     ac_contact_phone := Some phone;
     ac_project_title := qar_project_title project_data;
     ac_project_description := qar_project_description project_data;
     ac_delivery_date := qar_delivery_date project_data;
     ac_advance_token := qar_billing_details project_data;
     ac_project_manager := qar_project_manager project_data;
     ac_project_reference := qar_reference project_data;
     ac_status := active_clients_status_default;
     ac_created_at := gen_now g;
     ac_updated_at := gen_now g |}.

Definition set_completed (r : active_client_row) : active_client_row :=
  {| ac_id := ac_id r;
     ac_client_name := ac_client_name r;
     ac_contact_email := ac_contact_email r;
     ac_contact_phone := ac_contact_phone r;
     ac_project_title := ac_project_title r;
     ac_project_description := ac_project_description r;
     ac_delivery_date := ac_delivery_date r;
     ac_advance_token := ac_advance_token r;
     ac_project_manager := ac_project_manager r;
     ac_project_reference := ac_project_reference r;
     ac_status := "completed";
     ac_created_at := ac_created_at r;
     ac_updated_at := ac_updated_at r |}.

(** [UPDATE active_clients SET status='completed' WHERE id = %s] *)
Definition update_status_completed (id : Z) (d : db) : unit * db :=
  (tt, {| users := users d;
          enquiries := enquiries d;
          quickcontact := quickcontact d;
          active_clients :=
            map (fun r => if (ac_id r =? id)%Z then set_completed r else r)
                (active_clients d) |}).

(* ===================================================================== *)
(** * The handlers of the approval workflow *)
(* ===================================================================== *)

Definition NotFound : Z := 404.
Definition InternalError : Z := 500.
Definition Unauthorized : Z := 401.

(** [deny_enquiry] *)
Definition deny_enquiry (enquiry_id : Z) : io MessageResponse :=
  reraise_as_500 ""
    (with_get_db
       (found <- execute (select_1_from_enquiries enquiry_id) ;;
        match fetchone found with
        | None => raise (HTTPException 404 "Enquiry not found.")
        | Some _ =>
            execute (delete_from_enquiries enquiry_id) ;;;
            commit ;;;
            cur_ret {| status := "success";
                       message := "Enquiry denied and deleted." |}
        end)%cur).

(** [approve_enquiry] *)
Definition approve_enquiry (g : generated) (enquiry_id : Z)
    (project_data : ProjectApproveRequest) : io MessageResponse :=
  reraise_as_500 "Database error: "
    (with_get_db
       (found <- execute (select_1_from_enquiries enquiry_id) ;;
        match fetchone found with
        | None => raise (HTTPException 404 "Enquiry not found.")
        | Some _ =>
            execute (insert_into_active_clients
                       (enquiry_client_row g project_data)) ;;;
            execute (delete_from_enquiries enquiry_id) ;;;
            commit ;;;
            cur_ret {| status := "success";
                       message :=
                         "Enquiry approved and converted to active client." |}
        end)%cur).

(** [deny_quickcontact] *)
Definition deny_quickcontact (contact_id : Z) : io MessageResponse :=
  reraise_as_500 ""
    (with_get_db
       (found <- execute (select_1_from_quickcontact contact_id) ;;
        match fetchone found with
        | None => raise (HTTPException 404 "Quick contact not found.")
        | Some _ =>
            execute (delete_from_quickcontact contact_id) ;;;
            commit ;;;
            cur_ret {| status := "success";
                       message := "Quick contact denied and deleted." |}
        end)%cur).

(** [approve_quickcontact] *)
Definition approve_quickcontact (g : generated) (contact_id : Z)
    (project_data : QuickContactApproveRequest) : io MessageResponse :=
  reraise_as_500 "Database error: "
    (with_get_db
       (rows <- execute (select_contact_info contact_id) ;;
        match fetchone rows with
        | None => raise (HTTPException 404 "Quick contact not found.")
        | Some contact_info =>
            execute (insert_into_active_clients
                       (quickcontact_client_row g contact_info project_data)) ;;;
            execute (delete_from_quickcontact contact_id) ;;;
            commit ;;;
            cur_ret {| status := "success";
                       message :=
                         "Quick contact approved and converted to active client." |}
        end)%cur).

(** [complete_client_project] *)
Definition complete_client_project (client_id : Z) : io MessageResponse :=
  reraise_as_500 "Database error: "
    (with_get_db
       (found <- execute (select_1_from_active_clients client_id) ;;
        match fetchone found with
        | None => raise (HTTPException 404 "Client not found.")
        | Some _ =>
            execute (update_status_completed client_id) ;;;
            commit ;;;
            cur_ret {| status := "success";
                       message := "Client project marked as completed." |}
        end)%cur).

(** The world in which every round trip succeeds. *)
Definition clean (d : db) : world := {| storage := d; faults := [] |}.

(** A row with the given key is in the table. *)
Definition has_enquiry (id : Z) (d : db) : Prop :=
  exists r, In r (enquiries d) /\ enq_id r = id.

Definition has_quickcontact (id : Z) (d : db) : Prop :=
  exists r, In r (quickcontact d) /\ qc_id r = id.

Definition has_client (id : Z) (d : db) : Prop :=
  exists r, In r (active_clients d) /\ ac_id r = id.

(** The outcome of a request that changed nothing: an [HTTPException] of
    kind [NotFound] or [InternalError], the store [d] as it was. *)
Definition refused {A} (d : db) (res : (exn + A) * world) : Prop :=
  storage (snd res) = d
  /\ exists code detail,
       fst res = inl (HTTPException code detail)
       /\ (code = NotFound \/ code = InternalError).

(** A store with one enquiry and one quick contact, and requests to
    approve them, for the examples. *)
Definition sample_instant : datetime :=
  {| dt_date := {| year := 2024; month := 1; day := 1 |};
     hour := 9; minute := 30; second := 0; microsecond := 0;
     utcoffset := None |}.

Definition sample_enquiry : enquiry_row :=
  {| enq_id := 1; enq_name := "Alice"; enq_email := "alice@example.com";
     enq_phone := Some "111"; enq_service := None; enq_budget := "low";
     enq_timeline := "soon"; enq_idea := "shop"; enq_description := "a shop";
     enq_reference := None; enq_consent := true;
     enq_submitted_at := sample_instant |}.

Definition sample_contact : quickcontact_row :=
  {| qc_id := 1; qc_name := "Bob"; qc_phone := "222"; qc_subject := None;
     qc_message := None; qc_created_at := sample_instant |}.

Definition sample_db : db :=
  {| users := [{| user_id := 1; user_email := "a@x";
                  user_password := Some "p" |}];
     enquiries := [sample_enquiry];
     quickcontact := [sample_contact];
     active_clients := [] |}.

Definition sample_generated : generated :=
  {| gen_id := 10; gen_now := sample_instant |}.

Definition sample_project : ProjectApproveRequest :=
  {| par_name := Some "Mallory"; par_email := Some "mallory@example.com";
     par_phone := None; par_service := None; par_budget := None;
     par_timeline := None; par_idea := None; par_description := None;
     par_reference := None; par_consent := None;
     par_submitted_at := sample_instant;
     par_delivery_date := {| year := 2024; month := 6; day := 30 |};
     par_billing_details := "500"; par_project_title := "Shop";
     par_project_description := "Web shop"; par_project_reference := None;
     par_project_manager := "Carol" |}.

Definition sample_quick_project : QuickContactApproveRequest :=
  {| qar_name := Some "Mallory"; qar_phone := None;
     qar_project_title := "Site"; qar_project_description := "Landing page";
     qar_delivery_date := {| year := 2024; month := 6; day := 30 |};
     qar_billing_details := "200"; qar_project_manager := "Carol";
     qar_reference := Some "walk-in" |}.

(* ===================================================================== *)
(** * The session registry *)
(* ===================================================================== *)

(** The instants [datetime.utcnow()] returns and the registry compares:
    microseconds on the UTC time line, counted from 0001-01-01T00:00:00.
    [datetime.max] is the last microsecond of the year 9999. *)
Definition datetime_max : Z := 3652059 * 86400 * 1000000 - 1.

(** [timedelta(minutes=m)], in microseconds. *)
Definition timedelta_minutes (m : Z) : Z := m * 60 * 1000000.

(** [t + delta] on [datetime]: past [datetime.max] it raises
    [OverflowError]. *)
Definition datetime_add (t delta : Z) : exn + Z :=
  if (datetime_max <? t + delta)%Z then inl (Error "date value out of range")
  else inr (t + delta).

Definition SESSION_DURATION_MINUTES : Z := 1080.

(** An entry of [active_sessions]. *)
Record session := Session { session_id : string; expires_at : Z }.

Record LoginRequest := { lr_email : string; lr_password : string }.

Record SessionValidationRequest := {
  svr_email : string;
  svr_session_id : string
}.

(** The body of a successful [login]. *)
Record LoginResponse := {
  login_status : string;
  login_name : string;
  login_user_id : Z;
  login_session_id : string
}.

(** Status code and ["status"] field of the replies of [validate_session]
    and [user_logout]. *)
Record SessionReply := { reply_code : Z; reply_status : string }.

(** [SELECT * FROM users WHERE email = %s] *)
Definition select_users_where_email (email : string) (d : db)
  : list user_row * db :=
  (List.filter (fun u => String.eqb (user_email u) email) (users d), d).

(** The [try] block of [get_user_by_email]. *)
Definition fetch_user (email : string) : io (option user_row) :=
  with_get_db
    (rows <- execute (select_users_where_email email) ;;
     cur_ret (fetchone rows))%cur.

(** [get_user_by_email]: [except Exception] turns whatever the block
    raised into [None]. *)
Definition get_user_by_email (email : string) (w : world)
  : option user_row * world :=
  match fetch_user email w with
  | (inl _, w') => (None, w')
  | (inr user, w') => (user, w')
  end.

(** [user.get("password") != request.password] *)
Definition password_differs (stored : option string) (supplied : string) : bool :=
  match stored with
  | None => true
  | Some p => negb (String.eqb p supplied)
  end.

(** [login].  [uuid4] is the string [str(uuid.uuid4())] draws and [utcnow]
    the instant [datetime.utcnow()] reads. *)
Definition login (request : LoginRequest) (uuid4 : string) (utcnow : Z)
    (w : world) (active_sessions : gmap string session)
  : (exn + LoginResponse) * world * gmap string session :=
  let '(user, w') := get_user_by_email (lr_email request) w in
  match user with
  | None =>
      (inl (HTTPException 401 "Invalid email or password"), w', active_sessions)
  | Some user =>
      if password_differs (user_password user) (lr_password request) then
        (inl (HTTPException 401 "Invalid email or password"), w', active_sessions)
      else
        match datetime_add utcnow (timedelta_minutes SESSION_DURATION_MINUTES) with
        | inl e => (inl e, w', active_sessions)
        | inr expires =>
            (inr {| login_status := "success";
                    login_name := user_email user;
                    login_user_id := user_id user;
                    login_session_id := uuid4 |},
             w',
             <[user_email user := {| session_id := uuid4;
                                     expires_at := expires |}]> active_sessions)
        end
  end.

(** [validate_session] *)
Definition validate_session (req : SessionValidationRequest) (utcnow : Z)
    (active_sessions : gmap string session)
  : SessionReply * gmap string session :=
  let invalid :=
    ({| reply_code := 401; reply_status := "invalid" |},
     delete (svr_email req) active_sessions) in
  match active_sessions !! svr_email req with
  | None => invalid
  | Some s =>
      if negb (String.eqb (session_id s) (svr_session_id req))
         || (expires_at s <? utcnow)%Z
      then invalid
      else ({| reply_code := 200; reply_status := "valid" |}, active_sessions)
  end.

(** [user_logout] *)
Definition user_logout (req : SessionValidationRequest)
    (active_sessions : gmap string session)
  : SessionReply * gmap string session :=
  ({| reply_code := 200; reply_status := "logged_out" |},
   delete (svr_email req) active_sessions).

(** A login request and the maps two logins of it leave, for the
    examples. *)
Definition sample_login : LoginRequest :=
  {| lr_email := "a@x"; lr_password := "p" |}.

Definition sample_reply (token : string) : LoginResponse :=
  {| login_status := "success"; login_name := "a@x"; login_user_id := 1;
     login_session_id := token |}.

Definition sample_sessions1 : gmap string session :=
  <["a@x" := {| session_id := "T1";
                expires_at := 0 + timedelta_minutes SESSION_DURATION_MINUTES |}]>
    ∅.

Definition sample_sessions2 : gmap string session :=
  <["a@x" := {| session_id := "T2";
                expires_at := 5 + timedelta_minutes SESSION_DURATION_MINUTES |}]>
    sample_sessions1.

(** The world in which the server refuses the next connection. *)
Definition sample_down : world :=
  {| storage := sample_db; faults := [Fails "connection refused"] |}.

(* ===================================================================== *)
(** * The record serializer *)
(* ===================================================================== *)

(** [float(d)] for a [Decimal]: the binary64 number nearest to the decimal
    one, ties to even, which is the quotient of two integers rounded
    once. *)
Definition float_of_decimal (d : Decimal) : float :=
  match d with
  | DecNaN => S754_nan
  | DecInfinity s => S754_infinity s
  | DecFinite s N0 _ => S754_zero s
  | DecFinite s (Npos c) e =>
      let num := if (0 <=? e)%Z then (Zpos c * 10 ^ e)%Z else Zpos c in
      let den := if (0 <=? e)%Z then 1%Z else (10 ^ (- e))%Z in
      SFdiv prec64 emax64 (S754_finite s (Z.to_pos num) 0)
                          (S754_finite false (Z.to_pos den) 0)
  end.

(** [str(n)] for a natural number. *)
Definition str_N (n : N) : string := NilZero.string_of_uint (N.to_uint n).

Fixpoint zeros (k : nat) : string :=
  match k with
  | O => ""
  | S k' => String "0" (zeros k')
  end.

(** ["%0<width>d" % n] *)
Definition fmt_d (width : nat) (n : N) : string :=
  let s := str_N n in zeros (width - String.length s) +:+ s.

(** [date.isoformat()]: ["%04d-%02d-%02d"]. *)
Definition date_isoformat (d : date) : string :=
  fmt_d 4 (year d) +:+ "-" +:+ fmt_d 2 (month d) +:+ "-" +:+ fmt_d 2 (day d).

(** The time of day of [datetime.isoformat()]: ["%02d:%02d:%02d"], then
    [".%06d"] when the microseconds are not zero. *)
Definition format_time (hh mm ss us : N) : string :=
  fmt_d 2 hh +:+ ":" +:+ fmt_d 2 mm +:+ ":" +:+ fmt_d 2 ss
  +:+ (if (us =? 0)%N then "" else "." +:+ fmt_d 6 us).

(** The UTC offset of [datetime.isoformat()]: nothing for a naive value,
    else sign, hours and minutes, and the seconds when there are any. *)
Definition format_offset (off : option Z) : string :=
  match off with
  | None => ""
  | Some o =>
      let sign := if (o <? 0)%Z then "-" else "+" in
      let a := Z.to_N (Z.abs o) in
      let hh := (a / 3600)%N in
      let mm := ((a mod 3600) / 60)%N in
      let ss := (a mod 60)%N in
      sign +:+ fmt_d 2 hh +:+ ":" +:+ fmt_d 2 mm
      +:+ (if (ss =? 0)%N then "" else ":" +:+ fmt_d 2 ss)
  end.

(** [datetime.isoformat()] *)
Definition datetime_isoformat (d : datetime) : string :=
  date_isoformat (dt_date d) +:+ "T"
  +:+ format_time (hour d) (minute d) (second d) (microsecond d)
  +:+ format_offset (utcoffset d).

(** [_serialize_value] *)
Definition _serialize_value (v : value) : value :=
  match v with
  | VNone => VNone
  | VDecimal d => VFloat (float_of_decimal d)
  | VDatetime d => VStr (datetime_isoformat d)
  | VDate d => VStr (date_isoformat d)
  | _ => v
  end.

(** A Python [dict] with string keys: the items in insertion order, no key
    twice. *)
Definition dict := list (string * value).

(** [d.get(k)] *)
Fixpoint dict_get (k : string) (d : dict) : option value :=
  match d with
  | [] => None
  | (k', v) :: rest => if String.eqb k' k then Some v else dict_get k rest
  end.

(** [d[k] = v]: a key already present keeps its place and takes the new
    value, a new key goes to the end. *)
Fixpoint dict_set (k : string) (v : value) (d : dict) : dict :=
  match d with
  | [] => [(k, v)]
  | (k', v') :: rest =>
      if String.eqb k' k then (k', v) :: rest
      else (k', v') :: dict_set k v rest
  end.

Definition dict_keys (d : dict) : list string := map fst d.

(** The key [serialize_row_rename_image] writes for key [k]. *)
Definition new_key (k : string) : string :=
  if String.eqb k "image_url" then "imageUrl" else k.

(** [serialize_row_rename_image] *)
Definition serialize_row_rename_image (row : dict) : dict :=
  fold_left (fun out kv => dict_set (new_key (fst kv)) (_serialize_value (snd kv)) out)
            row [].

(** ISO 8601, extended format, written out digit by digit: what the
    serializer is compared with. *)
Definition digit (n : N) : ascii := ascii_of_N (48 + n mod 10).

Definition two_digits (n : N) : string :=
  String (digit (n / 10)) (String (digit n) "").

Definition four_digits (n : N) : string :=
  String (digit (n / 1000)) (String (digit (n / 100)) (two_digits n)).

(** [YYYY-MM-DD] *)
Definition iso8601_date (d : date) : string :=
  four_digits (year d) +:+ "-" +:+ two_digits (month d) +:+ "-"
  +:+ two_digits (day d).


(** The fields of a [date] are those of a calendar day. *)
Definition date_in_range (d : date) : Prop :=
  (1 <= year d <= 9999)%N /\ (1 <= month d <= 12)%N /\ (1 <= day d <= 31)%N.


(** The item [serialize_row_rename_image] writes for an item of the row. *)
Definition serialized_item (kv : string * value) : string * value :=
  (new_key (fst kv), _serialize_value (snd kv)).

(** A row that has both spellings of the image field. *)
Definition collision_row : dict :=
  [("image_url", VStr "a"); ("imageUrl", VStr "b")].



(* ===================================================================== *)
(** * Configuration from the environment *)
(* ===================================================================== *)

(** [env_first]: [os.getenv] reads the environment, a map from names to
    values; [if v] holds for a value that is set and not empty. *)
Fixpoint env_first (env : gmap string string) (keys : list string)
  : option string :=
  match keys with
  | [] => None
  | k :: rest =>
      match env !! k with
      | Some v => if String.eqb v "" then env_first env rest else Some v
      | None => env_first env rest
      end
  end.

(** [DB_CONFIG], the items in the order they are written. *)
Definition DB_CONFIG (env : gmap string string) : list (string * option string) :=
  [("user", env_first env ["PGUSER"; "user"]);
   ("password", env_first env ["PGPASSWORD"; "password"]);
   ("host", env_first env ["PGHOST"; "host"]);
   ("port", env_first env ["PGPORT"; "port"]);
   ("dbname", env_first env ["PGDATABASE"; "dbname"])].

(** [not v] for a configuration value. *)
Definition not_set (v : option string) : bool :=
  match v with
  | None => true
  | Some s => String.eqb s ""
  end.

(** [missing = [k for k, v in DB_CONFIG.items() if not v]] *)
Definition missing (env : gmap string string) : list string :=
  map fst (List.filter (fun kv => not_set (snd kv)) (DB_CONFIG env)).

(** The check at import time: [RuntimeError] when a setting is missing,
    carried here with the list it names. *)
Definition check_db_config (env : gmap string string)
  : list string + list (string * option string) :=
  match missing env with
  | [] => inr (DB_CONFIG env)
  | m => inl m
  end.

(* ===================================================================== *)
(** * Further handlers on the store *)
(* ===================================================================== *)

(** [str(e)]: the message of a plain exception; for an [HTTPException],
    status code and detail. *)
Definition str_exn (e : exn) : string :=
  match e with
  | Error msg => msg
  | HTTPException code detail => str_N (Z.to_N code) +:+ ": " +:+ detail
  end.

(** [except Exception as e: raise HTTPException(500, prefix + str(e) +
    suffix)], with no clause that lets an [HTTPException] through. *)
Definition any_exception_as_500 {A} (prefix suffix : string) (m : io A) : io A :=
  fun w =>
    match m w with
    | (inl e, w') =>
        (inl (HTTPException 500 (prefix +:+ str_exn e +:+ suffix)), w')
    | r => r
    end.









(** [AdminStatsResponse] *)
Record AdminStatsResponse := {
  new_enquiries : Z;
  active_projects : Z;
  completed_projects : Z
}.

(** [COUNT( * )] over the rows that pass a filter. *)
Definition count_where {A} (f : A -> bool) (l : list A) : Z :=
  Z.of_nat (List.length (List.filter f l)).

Definition date_eqb (a b : date) : bool :=
  (year a =? year b)%N && (month a =? month b)%N && (day a =? day b)%N.

(** The one row of the query of [get_admin_stats]: the enquiries and the
    quick contacts of [CURRENT_DATE], the active and the completed
    projects.  [date(ts)] is the calendar day of the time stamp. *)
Definition select_admin_counts (current_date : date) (d : db)
  : list (Z * Z * Z * Z) * db :=
  ([(count_where (fun r => date_eqb (dt_date (enq_submitted_at r)) current_date)
       (enquiries d),
     count_where (fun r => date_eqb (dt_date (qc_created_at r)) current_date)
       (quickcontact d),
     count_where (fun r => String.eqb (ac_status r) "active")
       (active_clients d),
     count_where (fun r => String.eqb (ac_status r) "completed")
       (active_clients d))], d).

(** [get_admin_stats] *)
Definition get_admin_stats (current_date : date) : io AdminStatsResponse :=
  any_exception_as_500 "Database error while fetching stats: "
    ". Please verify table and column names in the database."
    (with_get_db
       (rows <- execute (select_admin_counts current_date) ;;
        match fetchone rows with
        | Some (enquiry_count, quick_contact_count, active_projects_count,
                completed_projects_count) =>
            cur_ret {| new_enquiries := enquiry_count + quick_contact_count;
                       active_projects := active_projects_count;
                       completed_projects := completed_projects_count |}
        | None =>
            cur_ret {| new_enquiries := 0; active_projects := 0;
                       completed_projects := 0 |}
        end)%cur).

(** The body of the reply of [ping]. *)
Record PingReply := {
  ping_status : string;
  ping_db_status : string;
  ping_time : string;
  ping_db_time : option string
}.

(** [SELECT NOW() AS now]: one row, the clock of the server. *)
Definition select_now (db_now : datetime) (d : db) : list datetime * db :=
  ([db_now], d).

(** [ping]: [db_now] is the clock of the server, [utcnow] the one of the
    process. *)
Definition ping (db_now utcnow : datetime) (w : world) : PingReply * world :=
  match
    with_get_db
      (rows <- execute (select_now db_now) ;;
       cur_ret (option_map datetime_isoformat (fetchone rows)))%cur w
  with
  | (inr db_time, w') =>
      ({| ping_status := "Server is alive!"; ping_db_status := "alive";
          ping_time := datetime_isoformat utcnow; ping_db_time := db_time |},
       w')
  | (inl e, w') =>
      ({| ping_status := "Server is alive!";
          ping_db_status := "error - " +:+ str_exn e;
          ping_time := datetime_isoformat utcnow; ping_db_time := None |},
       w')
  end.

(* ===================================================================== *)
(** * Blogs, bills and letters *)
(* ===================================================================== *)

(** [blogs], columns as [add_blog] and [get_blogs] name them. *)
Record blog_row := BlogRow {
  blog_id : Z;
  blog_title : string;
  blog_slug : string;
  blog_excerpt : string;
  blog_content : string;
  blog_image_url : string;
  blog_date : date
}.

(** [Item], a line of a bill. *)
Record Item := {
  item_service : string;
  item_rate : string;
  item_quantity : Z;
  item_price : string
}.

(** [bills], columns as [add_bill] names them. *)
Record bill_row := BillRow {
  bill_id : Z;
  bill_no : string;
  bill_customer_name : option string;
  bill_customer_contact : option string;
  bill_products : list Item;
  bill_total_amount : option Decimal;
  bill_payment_mode : option string;
  bill_billing_date : option date
}.

(** [letterheads], columns as [add_letter] names them. *)
Record letter_row := LetterRow {
  letter_id : Z;
  letter_date : date;
  letter_ref_number : string;
  letter_issued_to : string;
  letter_issued_by : string;
  letter_subject : string;
  letter_content : string
}.

(** The tables of the content endpoints. *)
Record cms := Cms {
  blogs : list blog_row;
  bills : list bill_row;
  letterheads : list letter_row
}.

(** The connection of [conn], [cur], [execute], [commit], [rollback] and
    [with_get_db] once more, for a store of any type. *)
Record world_on (S : Type) := WorldOn { on_storage : S; on_faults : list outcome }.
Arguments WorldOn {S}.
Arguments on_storage {S}.
Arguments on_faults {S}.

Record conn_on (S : Type) := ConnOn {
  on_committed : S;
  on_working : S;
  on_in_transaction : bool;
  on_pending : list outcome
}.
Arguments ConnOn {S}.
Arguments on_committed {S}.
Arguments on_working {S}.
Arguments on_in_transaction {S}.
Arguments on_pending {S}.

Definition cur_on (S A : Type) : Type := conn_on S -> (exn + A) * conn_on S.

Definition ret_on {S A} (a : A) : cur_on S A := fun c => (inr a, c).

Definition bind_on {S A B} (m : cur_on S A) (k : A -> cur_on S B) : cur_on S B :=
  fun c =>
    match m c with
    | (inl e, c') => (inl e, c')
    | (inr a, c') => k a c'
    end.

Definition raise_on {S A} (e : exn) : cur_on S A := fun c => (inl e, c).

Declare Scope on_scope.
Delimit Scope on_scope with on.
Notation "x <- m ;; k" := (bind_on m (fun x => k))
  (at level 100, m at next level, right associativity) : on_scope.
Notation "m ;;; k" := (bind_on m (fun _ => k))
  (at level 100, right associativity) : on_scope.

Definition execute_on {S A} (stmt : S -> A * S) : cur_on S A :=
  fun c =>
    let '(o, rest) := next_outcome (on_pending c) in
    match o with
    | Fails msg =>
        (inl (Error msg),
         {| on_committed := on_committed c; on_working := on_working c;
            on_in_transaction := true; on_pending := rest |})
    | Ok =>
        let '(a, s) := stmt (on_working c) in
        (inr a,
         {| on_committed := on_committed c; on_working := s;
            on_in_transaction := true; on_pending := rest |})
    end.

Definition commit_on {S} : cur_on S unit :=
  fun c =>
    if on_in_transaction c then
      let '(o, rest) := next_outcome (on_pending c) in
      match o with
      | Fails msg =>
          (inl (Error msg),
           {| on_committed := on_committed c; on_working := on_working c;
              on_in_transaction := true; on_pending := rest |})
      | Ok =>
          (inr tt,
           {| on_committed := on_working c; on_working := on_working c;
              on_in_transaction := false; on_pending := rest |})
      end
    else (inr tt, c).

Definition rollback_on {S} : cur_on S unit :=
  fun c =>
    if on_in_transaction c then
      let '(o, rest) := next_outcome (on_pending c) in
      match o with
      | Fails msg =>
          (inl (Error msg),
           {| on_committed := on_committed c; on_working := on_working c;
              on_in_transaction := true; on_pending := rest |})
      | Ok =>
          (inr tt,
           {| on_committed := on_committed c; on_working := on_committed c;
              on_in_transaction := false; on_pending := rest |})
      end
    else (inr tt, c).

Definition io_on (S A : Type) : Type := world_on S -> (exn + A) * world_on S.

Definition with_get_db_on {S A} (body : cur_on S A) : io_on S A :=
  fun w =>
    let '(o, rest) := next_outcome (on_faults w) in
    match o with
    | Fails msg =>
        (inl (Error msg), {| on_storage := on_storage w; on_faults := rest |})
    | Ok =>
        let c0 := {| on_committed := on_storage w; on_working := on_storage w;
                     on_in_transaction := false; on_pending := rest |} in
        let '(r, c) := body c0 in
        let '(r', c') :=
          match r with
          | inr a => (commit_on ;;; ret_on a)%on c
          | inl e => (rollback_on ;;; raise_on e)%on c
          end in
        (r', {| on_storage := on_committed c'; on_faults := on_pending c' |})
    end.

(** [except HTTPException: raise] and [except Exception as e: raise
    HTTPException(500, str(e))]. *)
Definition reraise_as_500_on {S A} (m : io_on S A) : io_on S A :=
  fun w =>
    match m w with
    | (inl (Error msg), w') => (inl (HTTPException 500 msg), w')
    | r => r
    end.

(** [except Exception as e: raise HTTPException(500, str(e))] alone. *)
Definition any_exception_as_500_on {S A} (m : io_on S A) : io_on S A :=
  fun w =>
    match m w with
    | (inl e, w') => (inl (HTTPException 500 (str_exn e)), w')
    | r => r
    end.

Definition clean_on {S} (s : S) : world_on S :=
  {| on_storage := s; on_faults := [] |}.

(** [BlogCreateRequest] *)
Record BlogCreateRequest := {
  bcr_title : string;
  bcr_slug : string;
  bcr_excerpt : string;
  bcr_content : string;
  bcr_image_url : string;
  bcr_date : date
}.

(** [SELECT 1 FROM blogs WHERE slug = %s] *)
Definition select_1_from_blogs (slug : string) (s : cms) : list Z * cms :=
  (map (fun _ => 1) (List.filter (fun r => String.eqb (blog_slug r) slug) (blogs s)),
   s).

(** The row of the INSERT of [add_blog]; the key is the server's. *)
Definition new_blog_row (id : Z) (request : BlogCreateRequest) : blog_row :=
  {| blog_id := id;
     blog_title := bcr_title request;
     blog_slug := bcr_slug request;
     blog_excerpt := bcr_excerpt request;
     blog_content := bcr_content request;
     blog_image_url := bcr_image_url request;
     blog_date := bcr_date request |}.

(** [INSERT INTO blogs (...) VALUES (...)] *)
Definition insert_into_blogs (row : blog_row) (s : cms) : unit * cms :=
  (tt, {| blogs := blogs s ++ [row]; bills := bills s;
          letterheads := letterheads s |}).

(** [UPDATE blogs SET title=%s, slug=%s, ... WHERE slug = %s] *)
Definition update_blogs (slug : string) (updated_blog : BlogCreateRequest)
    (s : cms) : unit * cms :=
  (tt, {| blogs :=
            map (fun r => if String.eqb (blog_slug r) slug
                          then new_blog_row (blog_id r) updated_blog else r)
                (blogs s);
          bills := bills s;
          letterheads := letterheads s |}).

(** [DELETE FROM blogs WHERE slug = %s] *)
Definition delete_from_blogs (slug : string) (s : cms) : unit * cms :=
  (tt, {| blogs :=
            List.filter (fun r => negb (String.eqb (blog_slug r) slug)) (blogs s);
          bills := bills s;
          letterheads := letterheads s |}).

(** [add_blog] *)
Definition add_blog (id : Z) (request : BlogCreateRequest)
  : io_on cms MessageResponse :=
  reraise_as_500_on
    (with_get_db_on
       (found <- execute_on (select_1_from_blogs (bcr_slug request)) ;;
        match fetchone found with
        | Some _ => raise_on (HTTPException 400 "Slug already exists.")
        | None =>
            execute_on (insert_into_blogs (new_blog_row id request)) ;;;
            commit_on ;;;
            ret_on {| status := "success";
                      message := "Blog added successfully" |}
        end)%on).

(** [edit_blog] *)
Definition edit_blog (slug : string) (updated_blog : BlogCreateRequest)
  : io_on cms MessageResponse :=
  reraise_as_500_on
    (with_get_db_on
       (found <- execute_on (select_1_from_blogs slug) ;;
        match fetchone found with
        | None => raise_on (HTTPException 404 "Blog not found")
        | Some _ =>
            execute_on (update_blogs slug updated_blog) ;;;
            commit_on ;;;
            ret_on {| status := "success";
                      message := "Blog updated successfully" |}
        end)%on).

(** [delete_blog] *)
Definition delete_blog (slug : string) : io_on cms MessageResponse :=
  reraise_as_500_on
    (with_get_db_on
       (found <- execute_on (select_1_from_blogs slug) ;;
        match fetchone found with
        | None => raise_on (HTTPException 404 "Blog not found")
        | Some _ =>
            execute_on (delete_from_blogs slug) ;;;
            commit_on ;;;
            ret_on {| status := "success"; message := "Blog deleted" |}
        end)%on).

(** [dict(r)] for a row of the query of [get_blogs], the columns in the
    order of the SELECT list. *)
Definition blog_row_dict (r : blog_row) : dict :=
  [("id", VInt (blog_id r)); ("title", VStr (blog_title r));
   ("slug", VStr (blog_slug r)); ("excerpt", VStr (blog_excerpt r));
   ("content", VStr (blog_content r));
   ("image_url", VStr (blog_image_url r)); ("date", VDate (blog_date r))].

(** [SELECT id, title, ... FROM blogs ORDER BY date DESC]: [order_by] is
    the order the server returns the rows in. *)
Definition select_blogs (order_by : list blog_row -> list blog_row) (s : cms)
  : list blog_row * cms :=
  (order_by (blogs s), s).

(** [get_blogs] *)
Definition get_blogs (order_by : list blog_row -> list blog_row)
  : io_on cms (list dict) :=
  any_exception_as_500_on
    (fun w =>
       match with_get_db_on (execute_on (select_blogs order_by)) w with
       | (inr rows, w') =>
           (inr (map (fun r => serialize_row_rename_image (blog_row_dict r)) rows),
            w')
       | (inl e, w') => (inl e, w')
       end).

(** [date] values in the order of the calendar. *)
Definition date_leb (a b : date) : bool :=
  (year a <? year b)%N
  || ((year a =? year b)%N
      && ((month a <? month b)%N
          || ((month a =? month b)%N && (day a <=? day b)%N))).

(** [BillCreateRequest] *)
Record BillCreateRequest := {
  bill_customerName : option string;
  bill_customerId : option string;
  bill_customerPhone : option string;
  bill_billNoSuffix : option string;
  bill_date : option date;
  bill_paymentMode : option string;
  bill_billPrefix : option string;
  bill_items : list Item;
  bill_grandTotal : string
}.

(** [x or ''] *)
Definition or_empty (x : option string) : string :=
  match x with
  | Some s => s
  | None => ""
  end.

(** [f"{request.billPrefix or ''}{request.billNoSuffix or ''}"] *)
Definition full_bill_no (request : BillCreateRequest) : string :=
  or_empty (bill_billPrefix request) +:+ or_empty (bill_billNoSuffix request).

(** [SELECT 1 FROM bills WHERE bill_no = %s] *)
Definition select_1_from_bills (no : string) (s : cms) : list Z * cms :=
  (map (fun _ => 1) (List.filter (fun r => String.eqb (bill_no r) no) (bills s)), s).

(** The row of the INSERT of [add_bill].  [to_decimal] is
    [Decimal(str(...))], [None] where it raises. *)
Definition new_bill_row (to_decimal : string -> option Decimal) (id : Z)
    (request : BillCreateRequest) : bill_row :=
  {| bill_id := id;
     bill_no := full_bill_no request;
     bill_customer_name := bill_customerName request;
     bill_customer_contact := bill_customerPhone request;
     bill_products := bill_items request;
     bill_total_amount := to_decimal (bill_grandTotal request);
     bill_payment_mode := bill_paymentMode request;
     bill_billing_date := bill_date request |}.

(** [INSERT INTO bills (...) VALUES (...)] *)
Definition insert_into_bills (row : bill_row) (s : cms) : unit * cms :=
  (tt, {| blogs := blogs s; bills := bills s ++ [row];
          letterheads := letterheads s |}).

(** [add_bill] *)
Definition add_bill (to_decimal : string -> option Decimal) (id : Z)
    (request : BillCreateRequest) : io_on cms MessageResponse :=
  reraise_as_500_on
    (with_get_db_on
       (found <- execute_on (select_1_from_bills (full_bill_no request)) ;;
        match fetchone found with
        | Some _ => raise_on (HTTPException 400 "Bill number already exists.")
        | None =>
            execute_on (insert_into_bills (new_bill_row to_decimal id request)) ;;;
            commit_on ;;;
            ret_on {| status := "success";
                      message := "Bill added successfully" |}
        end)%on).

(** [LetterCreateRequest] *)
Record LetterCreateRequest := {
  lcr_date : date;
  lcr_ref_number : string;
  lcr_issued_to : string;
  lcr_issued_by : string;
  lcr_subject : string;
  lcr_content : string
}.

(** [SELECT 1 FROM letterheads WHERE ref_number = %s] *)
Definition select_1_from_letterheads (ref : string) (s : cms) : list Z * cms :=
  (map (fun _ => 1)
       (List.filter (fun r => String.eqb (letter_ref_number r) ref) (letterheads s)),
   s).

Definition new_letter_row (id : Z) (request : LetterCreateRequest) : letter_row :=
  {| letter_id := id;
     letter_date := lcr_date request;
     letter_ref_number := lcr_ref_number request;
     letter_issued_to := lcr_issued_to request;
     letter_issued_by := lcr_issued_by request;
     letter_subject := lcr_subject request;
     letter_content := lcr_content request |}.

(** [INSERT INTO letterheads (...) VALUES (...)] *)
Definition insert_into_letterheads (row : letter_row) (s : cms) : unit * cms :=
  (tt, {| blogs := blogs s; bills := bills s;
          letterheads := letterheads s ++ [row] |}).

(** [add_letter] *)
Definition add_letter (id : Z) (request : LetterCreateRequest)
  : io_on cms MessageResponse :=
  reraise_as_500_on
    (with_get_db_on
       (found <- execute_on (select_1_from_letterheads (lcr_ref_number request)) ;;
        match fetchone found with
        | Some _ =>
            raise_on (HTTPException 400 "Reference number already exists.")
        | None =>
            execute_on (insert_into_letterheads (new_letter_row id request)) ;;;
            commit_on ;;;
            ret_on {| status := "success";
                      message := "Letter added successfully" |}
        end)%on).

(** The slugs of the blogs, the numbers of the bills and the reference
    numbers of the letters are pairwise distinct. *)
Definition unique_keys (s : cms) : Prop :=
  List.NoDup (map blog_slug (blogs s))
  /\ List.NoDup (map bill_no (bills s))
  /\ List.NoDup (map letter_ref_number (letterheads s)).

(* ===================================================================== *)
(** * Values and predicates for the further properties *)
(* ===================================================================== *)

(** The sample store after the approval of its enquiry: one active
    client, with key 10. *)
Definition sample_client_db : db :=
  snd (delete_from_enquiries 1
         (snd (insert_into_active_clients
                 (enquiry_client_row sample_generated sample_project)
                 sample_db))).



(** The counts [get_admin_stats] reports on a store when no round trip
    fails. *)
Definition admin_counts (current_date : date) (d : db) : AdminStatsResponse :=
  {| new_enquiries :=
       count_where (fun r => date_eqb (dt_date (enq_submitted_at r)) current_date)
         (enquiries d)
       + count_where (fun r => date_eqb (dt_date (qc_created_at r)) current_date)
           (quickcontact d);
     active_projects :=
       count_where (fun r => String.eqb (ac_status r) "active") (active_clients d);
     completed_projects :=
       count_where (fun r => String.eqb (ac_status r) "completed")
         (active_clients d) |}.

(** A value the JSON encoder of the framework takes as it is: not a
    [Decimal], a [date] or a [datetime]. *)
Definition json_safe (v : value) : bool :=
  match v with
  | VDecimal _ | VDate _ | VDatetime _ => false
  | _ => true
  end.

(** Reading a date back from its ten characters, to tell apart the
    strings of two dates. *)
Definition digit_value (a : ascii) : N := (N_of_ascii a - 48)%N.

Fixpoint read_digits (acc : N) (s : string) : N :=
  match s with
  | EmptyString => acc
  | String a s' => read_digits (10 * acc + digit_value a) s'
  end.

Definition read_date (s : string) : date :=
  {| year := read_digits 0 (substring 0 4 s);
     month := read_digits 0 (substring 5 2 s);
     day := read_digits 0 (substring 8 2 s) |}.

(** A name is of no use to [env_first]: not in the environment, or set to
    the empty string. *)
Definition unset (env : gmap string string) (k : string) : bool :=
  match env !! k with
  | None => true
  | Some v => String.eqb v ""
  end.

(** The settings of [DB_CONFIG] with the two names each is read from. *)
Definition setting_names : list (string * (string * string)) :=
  [("user", ("PGUSER", "user")); ("password", ("PGPASSWORD", "password"));
   ("host", ("PGHOST", "host")); ("port", ("PGPORT", "port"));
   ("dbname", ("PGDATABASE", "dbname"))].

(** An environment that sets the user under the short name only and
    everything else under the [PG] name. *)
Definition sample_env : gmap string string :=
  <["PGUSER" := ""]> (<["user" := "app"]> (<["PGPASSWORD" := "s3cret"]>
  (<["PGHOST" := "db"]> (<["PGPORT" := "5432"]>
  (<["PGDATABASE" := "site"]> ∅))))).

(** One way for the server to order the blogs by date, latest first:
    insertion into a list ordered so far. *)
Fixpoint insert_by_date (r : blog_row) (l : list blog_row) : list blog_row :=
  match l with
  | [] => [r]
  | r' :: l' =>
      if date_leb (blog_date r') (blog_date r) then r :: l
      else r' :: insert_by_date r l'
  end.

Definition sort_by_date_desc (l : list blog_row) : list blog_row :=
  fold_right insert_by_date [] l.

(** A content store with one blog, and requests, for the examples. *)
Definition sample_blog : blog_row :=
  {| blog_id := 1; blog_title := "Hello"; blog_slug := "hello";
     blog_excerpt := "Hi"; blog_content := "Hello, world";
     blog_image_url := "https://example.com/a.png";
     blog_date := {| year := 2024; month := 1; day := 1 |} |}.

Definition sample_cms : cms :=
  {| blogs := [sample_blog]; bills := []; letterheads := [] |}.

Definition sample_blog_request (slug : string) : BlogCreateRequest :=
  {| bcr_title := "News"; bcr_slug := slug; bcr_excerpt := "New";
     bcr_content := "What is new"; bcr_image_url := "https://example.com/n.png";
     bcr_date := {| year := 2024; month := 6; day := 30 |} |}.


Definition sample_letter_request : LetterCreateRequest :=
  {| lcr_date := {| year := 2024; month := 6; day := 30 |};
     lcr_ref_number := "REF-1"; lcr_issued_to := "Bob";
     lcr_issued_by := "Carol"; lcr_subject := "Offer";
     lcr_content := "Dear Bob" |}.

(* ===================================================================== *)
(** * Properties of the approval workflow *)
(* ===================================================================== *)

Section ResultSets.
Context {A B : Type} (f : A -> bool) (g : A -> B).

(** The first row of a filtered result set is the first row of the table
    that passes the filter. *)
Lemma fetchone_where (l : list A) :
  fetchone (map g (List.filter f l)) = option_map g (List.find f l).
Proof.
  induction l as [|a l IH]; simpl; [reflexivity|].
  destruct (f a); simpl; [reflexivity | exact IH].
Qed.

Lemma find_absent (l : list A) :
  (forall r, In r l -> f r = false) -> List.find f l = None.
Proof.
  induction l as [|a l IH]; simpl; intros H; [reflexivity|].
  rewrite (H a (or_introl eq_refl)). apply IH. intros r Hr. apply H. now right.
Qed.

Lemma find_present (l : list A) (r : A) :
  In r l -> f r = true -> exists r0, List.find f l = Some r0.
Proof.
  induction l as [|a l IH]; simpl; intros Hin Hf; [contradiction|].
  destruct (f a) eqn:Ea; [eauto|].
  destruct Hin as [->|Hin]; [congruence | eauto].
Qed.

Lemma filter_out_all (l : list A) (r : A) :
  In r (List.filter (fun x => negb (f x)) l) -> f r = false.
Proof.
  intros H. apply filter_In in H. destruct H as [_ H].
  now apply negb_true_iff in H.
Qed.
End ResultSets.

Lemma no_enquiry_fetchone (id : Z) (d : db) :
  ~ has_enquiry id d ->
  fetchone (fst (select_1_from_enquiries id d)) = None.
Proof.
  intros H. unfold select_1_from_enquiries; simpl.
  rewrite fetchone_where, find_absent; [reflexivity|].
  intros r Hr. apply Z.eqb_neq. intros E. apply H. now exists r.
Qed.

Lemma has_enquiry_fetchone (id : Z) (d : db) :
  has_enquiry id d ->
  fetchone (fst (select_1_from_enquiries id d)) = Some 1.
Proof.
  intros [r [Hr E]]. unfold select_1_from_enquiries; simpl.
  rewrite fetchone_where.
  destruct (find_present (fun r => (enq_id r =? id)%Z) _ r Hr) as [r0 ->];
    [now apply Z.eqb_eq | reflexivity].
Qed.

Lemma enquiry_deleted (id : Z) (d d' : db) :
  enquiries d' = List.filter (fun r => negb (enq_id r =? id)%Z) (enquiries d) ->
  ~ has_enquiry id d'.
Proof.
  intros Hd [r [Hr E]]. rewrite Hd in Hr.
  apply filter_out_all in Hr. apply Z.eqb_neq in Hr. contradiction.
Qed.

Lemma no_quickcontact_fetchone (id : Z) (d : db) :
  ~ has_quickcontact id d ->
  fetchone (fst (select_1_from_quickcontact id d)) = None
  /\ fetchone (fst (select_contact_info id d)) = None.
Proof.
  intros H. unfold select_1_from_quickcontact, select_contact_info; simpl.
  rewrite !fetchone_where, find_absent; [split; reflexivity|].
  intros r Hr. apply Z.eqb_neq. intros E. apply H. now exists r.
Qed.

Lemma has_quickcontact_find (id : Z) (d : db) :
  has_quickcontact id d ->
  exists c, List.find (fun r => (qc_id r =? id)%Z) (quickcontact d) = Some c.
Proof.
  intros [r [Hr E]].
  apply (find_present (fun r => (qc_id r =? id)%Z) _ r Hr). now apply Z.eqb_eq.
Qed.

Lemma quickcontact_deleted (id : Z) (d d' : db) :
  quickcontact d' = List.filter (fun r => negb (qc_id r =? id)%Z) (quickcontact d) ->
  ~ has_quickcontact id d'.
Proof.
  intros Hd [r [Hr E]]. rewrite Hd in Hr.
  apply filter_out_all in Hr. apply Z.eqb_neq in Hr. contradiction.
Qed.

Lemma no_client_fetchone (id : Z) (d : db) :
  ~ has_client id d ->
  fetchone (fst (select_1_from_active_clients id d)) = None.
Proof.
  intros H. unfold select_1_from_active_clients; simpl.
  rewrite fetchone_where, find_absent; [reflexivity|].
  intros r Hr. apply Z.eqb_neq. intros E. apply H. now exists r.
Qed.

Lemma app_one_neq {A} (l : list A) (x : A) : l <> (l ++ [x])%list.
Proof.
  intros E. apply (f_equal (@List.length A)) in E.
  rewrite length_app in E. simpl in E. lia.
Qed.

(** Unfolds a handler down to the round trips it makes. *)
Ltac unfold_handler :=
  unfold deny_enquiry, approve_enquiry, deny_quickcontact,
    approve_quickcontact, complete_client_project, fetch_user,
    reraise_as_500, with_get_db, cur_bind, cur_ret, raise, execute, commit,
    rollback, clean in *.

(** Splits a script of outcomes into the cases of its first round trip. *)
Ltac first_outcome fs :=
  let m := fresh "msg" in destruct fs as [|[|m] fs]; cbn.

(** Splits a script into the cases of its first six round trips, the most
    a handler of the workflow makes: connect, three statements, commit and
    rollback. *)
Ltac six_outcomes fs :=
  destruct fs as [|[|?] [|[|?] [|[|?] [|[|?] [|[|?] [|[|?] fs]]]]]]; cbn.

(** ** Runs on an id that is not in the table *)

Section MissingId.
Variables (d : db) (id : Z).

Lemma deny_enquiry_missing :
  ~ has_enquiry id d ->
  deny_enquiry id (clean d)
  = (inl (HTTPException NotFound "Enquiry not found."), clean d).
Proof.
  intros H. apply no_enquiry_fetchone in H. simpl in H.
  unfold_handler. cbn. rewrite H. reflexivity.
Qed.

Lemma deny_enquiry_missing_refused (fs : list outcome) :
  ~ has_enquiry id d ->
  refused d (deny_enquiry id {| storage := d; faults := fs |}).
Proof.
  intros H. apply no_enquiry_fetchone in H. simpl in H.
  unfold refused, NotFound, InternalError. unfold_handler. cbn.
  six_outcomes fs; rewrite ?H; cbn; split; eauto 6.
Qed.

Lemma approve_enquiry_missing g project_data :
  ~ has_enquiry id d ->
  approve_enquiry g id project_data (clean d)
  = (inl (HTTPException NotFound "Enquiry not found."), clean d).
Proof.
  intros H. apply no_enquiry_fetchone in H. simpl in H.
  unfold_handler. cbn. rewrite H. reflexivity.
Qed.

Lemma approve_enquiry_missing_refused g project_data (fs : list outcome) :
  ~ has_enquiry id d ->
  refused d (approve_enquiry g id project_data {| storage := d; faults := fs |}).
Proof.
  intros H. apply no_enquiry_fetchone in H. simpl in H.
  unfold refused, NotFound, InternalError. unfold_handler. cbn.
  six_outcomes fs; rewrite ?H; cbn; split; eauto 6.
Qed.

Lemma deny_quickcontact_missing :
  ~ has_quickcontact id d ->
  deny_quickcontact id (clean d)
  = (inl (HTTPException NotFound "Quick contact not found."), clean d).
Proof.
  intros H. apply no_quickcontact_fetchone in H. destruct H as [H _].
  simpl in H. unfold_handler. cbn. rewrite H. reflexivity.
Qed.

Lemma deny_quickcontact_missing_refused (fs : list outcome) :
  ~ has_quickcontact id d ->
  refused d (deny_quickcontact id {| storage := d; faults := fs |}).
Proof.
  intros H. apply no_quickcontact_fetchone in H. destruct H as [H _].
  simpl in H. unfold refused, NotFound, InternalError. unfold_handler. cbn.
  six_outcomes fs; rewrite ?H; cbn; split; eauto 6.
Qed.

Lemma approve_quickcontact_missing g project_data :
  ~ has_quickcontact id d ->
  approve_quickcontact g id project_data (clean d)
  = (inl (HTTPException NotFound "Quick contact not found."), clean d).
Proof.
  intros H. apply no_quickcontact_fetchone in H. destruct H as [_ H].
  simpl in H. unfold_handler. cbn. rewrite H. reflexivity.
Qed.

Lemma approve_quickcontact_missing_refused g project_data (fs : list outcome) :
  ~ has_quickcontact id d ->
  refused d (approve_quickcontact g id project_data
             {| storage := d; faults := fs |}).
Proof.
  intros H. apply no_quickcontact_fetchone in H. destruct H as [_ H].
  simpl in H. unfold refused, NotFound, InternalError. unfold_handler. cbn.
  six_outcomes fs; rewrite ?H; cbn; split; eauto 6.
Qed.

Lemma complete_client_project_missing :
  ~ has_client id d ->
  complete_client_project id (clean d)
  = (inl (HTTPException NotFound "Client not found."), clean d).
Proof.
  intros H. apply no_client_fetchone in H. simpl in H.
  unfold_handler. cbn. rewrite H. reflexivity.
Qed.

Lemma complete_client_project_missing_refused (fs : list outcome) :
  ~ has_client id d ->
  refused d (complete_client_project id {| storage := d; faults := fs |}).
Proof.
  intros H. apply no_client_fetchone in H. simpl in H.
  unfold refused, NotFound, InternalError. unfold_handler. cbn.
  six_outcomes fs; rewrite ?H; cbn; split; eauto 6.
Qed.
End MissingId.

(** ** Runs on an id that is in the table *)

Lemma has_contact_fetchone (id : Z) (d : db) (c : quickcontact_row) :
  List.find (fun r => (qc_id r =? id)%Z) (quickcontact d) = Some c ->
  fetchone (fst (select_1_from_quickcontact id d)) = Some 1
  /\ fetchone (fst (select_contact_info id d))
     = Some (qc_id c, qc_name c, qc_phone c).
Proof.
  intros H. unfold select_1_from_quickcontact, select_contact_info; simpl.
  rewrite !fetchone_where, H. split; reflexivity.
Qed.

(** With every outcome there is, [approve_enquiry] either raises and
    leaves the store as it was, or returns with the row inserted and the
    enquiry gone. *)
Lemma approve_enquiry_outcomes g d fs id project_data :
  has_enquiry id d ->
  let '(r, w') :=
    approve_enquiry g id project_data {| storage := d; faults := fs |} in
  let source := has_enquiry id (storage w') in
  let derived :=
    active_clients (storage w')
    = (active_clients d ++ [enquiry_client_row g project_data])%list in
  ((exists e, r = inl e) /\ storage w' = d /\ source /\ ~ derived)
  \/ ((exists m, r = inr m) /\ ~ source /\ derived).
Proof.
  intros H.
  pose proof (has_enquiry_fetchone id d H) as Hq. simpl in Hq.
  unfold_handler. cbn.
  six_outcomes fs; rewrite ?Hq; cbn.
  all: first
    [ left; split; [eauto|]; split; [reflexivity|]; split;
      [assumption | apply app_one_neq]
    | right; split; [eauto|]; split;
      [eapply enquiry_deleted; reflexivity | reflexivity] ].
Qed.

Lemma approve_quickcontact_outcomes g d fs id project_data c :
  List.find (fun r => (qc_id r =? id)%Z) (quickcontact d) = Some c ->
  let '(r, w') :=
    approve_quickcontact g id project_data {| storage := d; faults := fs |} in
  let source := has_quickcontact id (storage w') in
  let derived :=
    active_clients (storage w')
    = (active_clients d
       ++ [quickcontact_client_row g (qc_id c, qc_name c, qc_phone c)
             project_data])%list in
  ((exists e, r = inl e) /\ storage w' = d /\ source /\ ~ derived)
  \/ ((exists m, r = inr m) /\ ~ source /\ derived).
Proof.
  intros H.
  assert (Hs : has_quickcontact id d).
  { apply find_some in H. destruct H as [Hin E]. exists c.
    split; [exact Hin | now apply Z.eqb_eq]. }
  destruct (has_contact_fetchone id d c H) as [_ Hq]. simpl in Hq.
  unfold_handler. cbn.
  six_outcomes fs; rewrite ?Hq; cbn.
  all: first
    [ left; split; [eauto|]; split; [reflexivity|]; split;
      [assumption | apply app_one_neq]
    | right; split; [eauto|]; split;
      [eapply quickcontact_deleted; reflexivity | reflexivity] ].
Qed.

(** The run of [deny_enquiry] in which no round trip fails. *)
Lemma deny_enquiry_present (d : db) (id : Z) :
  has_enquiry id d ->
  deny_enquiry id (clean d)
  = (inr {| status := "success"; message := "Enquiry denied and deleted." |},
     clean (snd (delete_from_enquiries id d))).
Proof.
  intros H. apply has_enquiry_fetchone in H. simpl in H.
  unfold_handler. cbn. rewrite H. reflexivity.
Qed.



Lemma sample_db_has_enquiry : has_enquiry 1 sample_db.
Proof. exists sample_enquiry. split; [left; reflexivity | reflexivity]. Defined.

Lemma sample_db_has_quickcontact : has_quickcontact 1 sample_db.
Proof. exists sample_contact. split; [left; reflexivity | reflexivity]. Defined.

Lemma sample_db_no_enquiry_2 : ~ has_enquiry 2 sample_db.
Proof.
  intros [r [[<-|[]] E]]. discriminate E.
Defined.

Lemma sample_db_no_quickcontact_2 : ~ has_quickcontact 2 sample_db.
Proof.
  intros [r [[<-|[]] E]]. discriminate E.
Defined.

Lemma sample_db_no_client_2 : ~ has_client 2 sample_db.
Proof.
  intros [r [[] E]].
Defined.

(** ** The claims on the approval workflow *)

(** C1.  Approving an existing enquiry or quick contact is all or nothing,
    whatever round trips fail: either the handler raises and the store is
    exactly as before, so the source row is still there and no row was
    added to [active_clients]; or it returns, the derived row is the one
    row added to [active_clients] and no row with the source id is left.
    Exactly one of "source row exists" and "derived row exists" holds
    afterwards. *)
Theorem approval_all_or_nothing (g : generated) (d : db) (fs : list outcome)
    (id : Z) :
  (forall project_data : ProjectApproveRequest,
     has_enquiry id d ->
     let '(r, w') :=
       approve_enquiry g id project_data {| storage := d; faults := fs |} in
     let source := has_enquiry id (storage w') in
     let derived :=
       active_clients (storage w')
       = (active_clients d ++ [enquiry_client_row g project_data])%list in
     ((exists e, r = inl e) /\ storage w' = d /\ source /\ ~ derived)
     \/ ((exists m, r = inr m) /\ ~ source /\ derived))
  /\
  (forall project_data : QuickContactApproveRequest,
     has_quickcontact id d ->
     exists c,
       List.find (fun r => (qc_id r =? id)%Z) (quickcontact d) = Some c
       /\ let '(r, w') :=
            approve_quickcontact g id project_data
              {| storage := d; faults := fs |} in
          let source := has_quickcontact id (storage w') in
          let derived :=
            active_clients (storage w')
            = (active_clients d
               ++ [quickcontact_client_row g (qc_id c, qc_name c, qc_phone c)
                     project_data])%list in
          ((exists e, r = inl e) /\ storage w' = d /\ source /\ ~ derived)
          \/ ((exists m, r = inr m) /\ ~ source /\ derived)).
Proof.
  split.
  - intros project_data H. now apply approve_enquiry_outcomes.
  - intros project_data H.
    destruct (has_quickcontact_find id d H) as [c Hc].
    exists c. split; [exact Hc|]. now apply approve_quickcontact_outcomes.
Qed.

Lemma approval_all_or_nothing_witness :
  has_enquiry 1 sample_db /\ has_quickcontact 1 sample_db
  /\ (let '(r, w') :=
        approve_enquiry sample_generated 1 sample_project
          {| storage := sample_db; faults := [Ok; Ok; Ok; Fails "deadlock"] |} in
      let source := has_enquiry 1 (storage w') in
      let derived :=
        active_clients (storage w')
        = (active_clients sample_db
           ++ [enquiry_client_row sample_generated sample_project])%list in
      ((exists e, r = inl e) /\ storage w' = sample_db /\ source /\ ~ derived)
      \/ ((exists m, r = inr m) /\ ~ source /\ derived))
  /\ (exists c,
       List.find (fun r => (qc_id r =? 1)%Z) (quickcontact sample_db) = Some c
       /\ let '(r, w') :=
            approve_quickcontact sample_generated 1 sample_quick_project
              {| storage := sample_db;
                 faults := [Ok; Ok; Ok; Fails "deadlock"] |} in
          let source := has_quickcontact 1 (storage w') in
          let derived :=
            active_clients (storage w')
            = (active_clients sample_db
               ++ [quickcontact_client_row sample_generated
                     (qc_id c, qc_name c, qc_phone c)
                     sample_quick_project])%list in
          ((exists e, r = inl e) /\ storage w' = sample_db /\ source /\ ~ derived)
          \/ ((exists m, r = inr m) /\ ~ source /\ derived)).
Proof.
  split; [exact sample_db_has_enquiry|].
  split; [exact sample_db_has_quickcontact|].
  split.
  - exact (proj1 (approval_all_or_nothing sample_generated sample_db
                    [Ok; Ok; Ok; Fails "deadlock"] 1)
                 sample_project sample_db_has_enquiry).
  - exact (proj2 (approval_all_or_nothing sample_generated sample_db
                    [Ok; Ok; Ok; Fails "deadlock"] 1)
                 sample_quick_project sample_db_has_quickcontact).
Defined.






(** C6.  On an id that is not in the table, each of [approve_enquiry],
    [deny_enquiry], [approve_quickcontact], [deny_quickcontact] and
    [complete_client_project] fails with [NotFound] and leaves the store
    as it was; and whatever round trips fail on the way, the store is
    unchanged and the failure is [NotFound] or [InternalError]. *)
Theorem missing_id_not_found (d : db) (id : Z) (g : generated)
    (project_data : ProjectApproveRequest)
    (quick_data : QuickContactApproveRequest) :
  (~ has_enquiry id d ->
   approve_enquiry g id project_data (clean d)
   = (inl (HTTPException NotFound "Enquiry not found."), clean d)
   /\ deny_enquiry id (clean d)
      = (inl (HTTPException NotFound "Enquiry not found."), clean d)
   /\ forall fs,
        refused d (approve_enquiry g id project_data
                     {| storage := d; faults := fs |})
        /\ refused d (deny_enquiry id {| storage := d; faults := fs |}))
  /\
  (~ has_quickcontact id d ->
   approve_quickcontact g id quick_data (clean d)
   = (inl (HTTPException NotFound "Quick contact not found."), clean d)
   /\ deny_quickcontact id (clean d)
      = (inl (HTTPException NotFound "Quick contact not found."), clean d)
   /\ forall fs,
        refused d (approve_quickcontact g id quick_data
                     {| storage := d; faults := fs |})
        /\ refused d (deny_quickcontact id {| storage := d; faults := fs |}))
  /\
  (~ has_client id d ->
   complete_client_project id (clean d)
   = (inl (HTTPException NotFound "Client not found."), clean d)
   /\ forall fs,
        refused d (complete_client_project id
                     {| storage := d; faults := fs |})).
Proof.
  split; [|split]; intros H.
  - split; [now apply approve_enquiry_missing|].
    split; [now apply deny_enquiry_missing|].
    intros fs. split.
    + now apply approve_enquiry_missing_refused.
    + now apply deny_enquiry_missing_refused.
  - split; [now apply approve_quickcontact_missing|].
    split; [now apply deny_quickcontact_missing|].
    intros fs. split.
    + now apply approve_quickcontact_missing_refused.
    + now apply deny_quickcontact_missing_refused.
  - split; [now apply complete_client_project_missing|].
    intros fs. now apply complete_client_project_missing_refused.
Qed.

Lemma missing_id_not_found_witness :
  ~ has_enquiry 2 sample_db /\ ~ has_quickcontact 2 sample_db
  /\ ~ has_client 2 sample_db
  /\ approve_enquiry sample_generated 2 sample_project (clean sample_db)
     = (inl (HTTPException NotFound "Enquiry not found."), clean sample_db)
  /\ deny_enquiry 2 (clean sample_db)
     = (inl (HTTPException NotFound "Enquiry not found."), clean sample_db)
  /\ approve_quickcontact sample_generated 2 sample_quick_project
       (clean sample_db)
     = (inl (HTTPException NotFound "Quick contact not found."),
        clean sample_db)
  /\ deny_quickcontact 2 (clean sample_db)
     = (inl (HTTPException NotFound "Quick contact not found."),
        clean sample_db)
  /\ complete_client_project 2 (clean sample_db)
     = (inl (HTTPException NotFound "Client not found."), clean sample_db).
Proof.
  destruct (missing_id_not_found sample_db 2 sample_generated sample_project
              sample_quick_project) as [He [Hq Hc]].
  split; [exact sample_db_no_enquiry_2|].
  split; [exact sample_db_no_quickcontact_2|].
  split; [exact sample_db_no_client_2|].
  destruct (He sample_db_no_enquiry_2) as [He1 [He2 _]].
  destruct (Hq sample_db_no_quickcontact_2) as [Hq1 [Hq2 _]].
  destruct (Hc sample_db_no_client_2) as [Hc1 _].
  repeat split; assumption.
Defined.

(** C7.  On an id that is in the table, [deny_enquiry] succeeds, deletes
    every enquiry row with that id and touches no other table, so no
    [active_clients] row appears; called again on the same id right after,
    it fails with [NotFound]. *)
Theorem deny_enquiry_twice (d : db) (id : Z) :
  has_enquiry id d ->
  exists d',
    deny_enquiry id (clean d)
    = (inr {| status := "success";
              message := "Enquiry denied and deleted." |}, clean d')
    /\ enquiries d'
       = List.filter (fun r => negb (enq_id r =? id)%Z) (enquiries d)
    /\ ~ has_enquiry id d'
    /\ active_clients d' = active_clients d
    /\ quickcontact d' = quickcontact d
    /\ users d' = users d
    /\ deny_enquiry id (clean d')
       = (inl (HTTPException NotFound "Enquiry not found."), clean d').
Proof.
  intros H.
  exists (snd (delete_from_enquiries id d)).
  assert (Hgone : ~ has_enquiry id (snd (delete_from_enquiries id d)))
    by (eapply enquiry_deleted; reflexivity).
  split; [now apply deny_enquiry_present|].
  split; [reflexivity|].
  split; [exact Hgone|].
  repeat (split; [reflexivity|]).
  now apply deny_enquiry_missing.
Qed.

Lemma deny_enquiry_twice_witness :
  has_enquiry 1 sample_db
  /\ exists d',
       deny_enquiry 1 (clean sample_db)
       = (inr {| status := "success";
                 message := "Enquiry denied and deleted." |}, clean d')
       /\ enquiries d'
          = List.filter (fun r => negb (enq_id r =? 1)%Z) (enquiries sample_db)
       /\ ~ has_enquiry 1 d'
       /\ active_clients d' = active_clients sample_db
       /\ quickcontact d' = quickcontact sample_db
       /\ users d' = users sample_db
       /\ deny_enquiry 1 (clean d')
          = (inl (HTTPException NotFound "Enquiry not found."), clean d').
Proof.
  split; [exact sample_db_has_enquiry|].
  exact (deny_enquiry_twice sample_db 1 sample_db_has_enquiry).
Defined.

(* ===================================================================== *)
(** * Properties of the session registry *)
(* ===================================================================== *)

(** The row [get_user_by_email] returns has the e-mail address asked
    for. *)
Lemma get_user_by_email_found (email : string) (w w' : world) (u : user_row) :
  get_user_by_email email w = (Some u, w') -> user_email u = email.
Proof.
  destruct w as [d fs]. unfold get_user_by_email. unfold_handler. cbn.
  assert (Hhead : forall u0,
            fetchone (List.filter (fun u => String.eqb (user_email u) email)
                        (users d)) = Some u0 ->
            user_email u0 = email).
  { intros u0 Hu0. rewrite <- (map_id (List.filter _ _)) in Hu0.
    rewrite fetchone_where in Hu0.
    destruct (List.find _ _) as [u1|] eqn:Hf; [|discriminate].
    injection Hu0 as <-. apply find_some in Hf. destruct Hf as [_ Hf].
    now apply String.eqb_eq. }
  six_outcomes fs; intros E; inversion E; subst; auto.
Qed.

(** A successful [login] replies with the token drawn and stores the one
    session of the e-mail address of the request, expiring
    [SESSION_DURATION_MINUTES] later. *)
Lemma login_success request uuid4 utcnow w (s : gmap string session) r w' s' :
  login request uuid4 utcnow w s = (inr r, w', s') ->
  login_session_id r = uuid4
  /\ s' = <[lr_email request :=
              {| session_id := uuid4;
                 expires_at :=
                   utcnow + timedelta_minutes SESSION_DURATION_MINUTES |}]> s.
Proof.
  unfold login.
  destruct (get_user_by_email (lr_email request) w) as [[u|] w1] eqn:Hu;
    [|discriminate].
  apply get_user_by_email_found in Hu.
  destruct (password_differs _ _); [discriminate|].
  unfold datetime_add.
  destruct (datetime_max <? _)%Z; [discriminate|].
  intros E. inversion E; subst. rewrite Hu. split; reflexivity.
Qed.

Lemma validate_session_wrong_token email token utcnow
    (sessions : gmap string session) s :
  sessions !! email = Some s ->
  session_id s <> token ->
  validate_session {| svr_email := email; svr_session_id := token |}
    utcnow sessions
  = ({| reply_code := 401; reply_status := "invalid" |}, delete email sessions).
Proof.
  intros Hs Hne. unfold validate_session; simpl. rewrite Hs.
  apply String.eqb_neq in Hne. rewrite Hne. reflexivity.
Qed.

Lemma validate_session_no_session email token utcnow
    (sessions : gmap string session) :
  sessions !! email = None ->
  validate_session {| svr_email := email; svr_session_id := token |}
    utcnow sessions
  = ({| reply_code := 401; reply_status := "invalid" |}, delete email sessions).
Proof.
  intros Hs. unfold validate_session; simpl. rewrite Hs. reflexivity.
Qed.

Lemma validate_session_live email token utcnow
    (sessions : gmap string session) s :
  sessions !! email = Some s ->
  session_id s = token ->
  utcnow <= expires_at s ->
  validate_session {| svr_email := email; svr_session_id := token |}
    utcnow sessions
  = ({| reply_code := 200; reply_status := "valid" |}, sessions).
Proof.
  intros Hs He Ht. unfold validate_session; simpl. rewrite Hs.
  apply String.eqb_eq in He. rewrite He.
  assert (Hlt : (expires_at s <? utcnow)%Z = false) by (apply Z.ltb_ge; lia).
  rewrite Hlt. reflexivity.
Qed.

(** C4.  [validate_session] answers 401 exactly when there is no session
    for the e-mail address, or the stored token is not the supplied one,
    or the stored expiry is before now.  Whenever it answers 401 the entry
    of that address is removed from the map; otherwise the answer is
    "valid" and the map is the one it was given. *)
Theorem validate_session_unauthorized_iff (req : SessionValidationRequest)
    (utcnow : Z) (active_sessions : gmap string session) :
  let '(reply, sessions') := validate_session req utcnow active_sessions in
  (reply_code reply = Unauthorized <->
     active_sessions !! svr_email req = None
     \/ (exists s, active_sessions !! svr_email req = Some s
                   /\ session_id s <> svr_session_id req)
     \/ (exists s, active_sessions !! svr_email req = Some s
                   /\ expires_at s < utcnow))
  /\ (reply_code reply = Unauthorized ->
        reply = {| reply_code := 401; reply_status := "invalid" |}
        /\ sessions' = delete (svr_email req) active_sessions
        /\ sessions' !! svr_email req = None)
  /\ (reply_code reply <> Unauthorized ->
        reply = {| reply_code := 200; reply_status := "valid" |}
        /\ sessions' = active_sessions).
Proof.
  unfold validate_session, Unauthorized.
  destruct (active_sessions !! svr_email req) as [s|] eqn:Hs; simpl.
  - destruct (String.eqb_spec (session_id s) (svr_session_id req)) as [He|He];
      destruct (Z.ltb_spec (expires_at s) utcnow) as [Ht|Ht]; simpl.
    + split; [|split].
      * split; [intros _; right; right; eauto | reflexivity].
      * intros _. split; [reflexivity|]. split; [reflexivity|].
        apply lookup_delete_eq.
      * intros Hc. contradiction.
    + split; [|split].
      * split; [discriminate|].
        intros [Hn|[[s' [Hs' Hne]]|[s' [Hs' Hlt]]]].
        -- discriminate.
        -- injection Hs' as <-. contradiction.
        -- injection Hs' as <-. lia.
      * discriminate.
      * intros _. split; reflexivity.
    + split; [|split].
      * split; [intros _; right; left; eauto | reflexivity].
      * intros _. split; [reflexivity|]. split; [reflexivity|].
        apply lookup_delete_eq.
      * intros Hc. contradiction.
    + split; [|split].
      * split; [intros _; right; left; eauto | reflexivity].
      * intros _. split; [reflexivity|]. split; [reflexivity|].
        apply lookup_delete_eq.
      * intros Hc. contradiction.
  - split; [|split].
    + split; [intros _; left; reflexivity | reflexivity].
    + intros _. split; [reflexivity|]. split; [reflexivity|].
      apply lookup_delete_eq.
    + intros Hc. contradiction.
Qed.

(** C5.  The map holds one session per e-mail address and a login
    overwrites it.  After two successful logins of the same address that
    drew the tokens [T1] and then [T2], the entry of the address is the
    second session: validating with [T1] answers 401, validating with [T2]
    up to the expiry answers "valid" and leaves the map alone. *)
Theorem second_login_invalidates_first
    (request1 request2 : LoginRequest) (T1 T2 : string) (now1 now2 now3 : Z)
    (w0 w1 w2 : world) (s0 s1 s2 : gmap string session)
    (r1 r2 : LoginResponse) :
  lr_email request1 = lr_email request2 ->
  login request1 T1 now1 w0 s0 = (inr r1, w1, s1) ->
  login request2 T2 now2 w1 s1 = (inr r2, w2, s2) ->
  T1 <> T2 ->
  now3 <= now2 + timedelta_minutes SESSION_DURATION_MINUTES ->
  login_session_id r1 = T1
  /\ login_session_id r2 = T2
  /\ s1 !! lr_email request1
     = Some {| session_id := T1;
               expires_at := now1 + timedelta_minutes SESSION_DURATION_MINUTES |}
  /\ s2 !! lr_email request1
     = Some {| session_id := T2;
               expires_at := now2 + timedelta_minutes SESSION_DURATION_MINUTES |}
  /\ validate_session
       {| svr_email := lr_email request1; svr_session_id := T1 |} now3 s2
     = ({| reply_code := Unauthorized; reply_status := "invalid" |},
        delete (lr_email request1) s2)
  /\ validate_session
       {| svr_email := lr_email request1; svr_session_id := T2 |} now3 s2
     = ({| reply_code := 200; reply_status := "valid" |}, s2).
Proof.
  intros Hmail H1 H2 Hne Hnow. set (email := lr_email request1) in *.
  apply login_success in H1. destruct H1 as [Hr1 Hs1].
  apply login_success in H2. destruct H2 as [Hr2 Hs2].
  rewrite <- Hmail in Hs2. fold email in Hs1, Hs2.
  assert (L1 : s1 !! email
               = Some {| session_id := T1;
                         expires_at :=
                           now1 + timedelta_minutes SESSION_DURATION_MINUTES |})
    by (rewrite Hs1; apply lookup_insert_eq).
  assert (L2 : s2 !! email
               = Some {| session_id := T2;
                         expires_at :=
                           now2 + timedelta_minutes SESSION_DURATION_MINUTES |})
    by (rewrite Hs2; apply lookup_insert_eq).
  split; [exact Hr1|]. split; [exact Hr2|].
  split; [exact L1|]. split; [exact L2|].
  split.
  - apply (validate_session_wrong_token _ _ _ _ _ L2). simpl. congruence.
  - apply (validate_session_live _ _ _ _ _ L2); [reflexivity | exact Hnow].
Qed.

Lemma second_login_invalidates_first_witness :
  login sample_login "T1" 0 (clean sample_db) ∅
  = (inr (sample_reply "T1"), clean sample_db, sample_sessions1)
  /\ login sample_login "T2" 5 (clean sample_db) sample_sessions1
     = (inr (sample_reply "T2"), clean sample_db, sample_sessions2)
  /\ "T1" <> "T2"
  /\ 9 <= 5 + timedelta_minutes SESSION_DURATION_MINUTES
  /\ validate_session {| svr_email := "a@x"; svr_session_id := "T1" |} 9
       sample_sessions2
     = ({| reply_code := Unauthorized; reply_status := "invalid" |},
        delete "a@x" sample_sessions2)
  /\ validate_session {| svr_email := "a@x"; svr_session_id := "T2" |} 9
       sample_sessions2
     = ({| reply_code := 200; reply_status := "valid" |}, sample_sessions2).
Proof.
  assert (H1 : login sample_login "T1" 0 (clean sample_db) ∅
               = (inr (sample_reply "T1"), clean sample_db, sample_sessions1))
    by reflexivity.
  assert (H2 : login sample_login "T2" 5 (clean sample_db) sample_sessions1
               = (inr (sample_reply "T2"), clean sample_db, sample_sessions2))
    by reflexivity.
  assert (Hne : "T1" <> "T2") by discriminate.
  assert (Hnow : 9 <= 5 + timedelta_minutes SESSION_DURATION_MINUTES)
    by (vm_compute; discriminate).
  split; [exact H1|]. split; [exact H2|]. split; [exact Hne|].
  split; [exact Hnow|].
  exact (proj2 (proj2 (proj2 (proj2
           (second_login_invalidates_first sample_login sample_login
              "T1" "T2" 0 5 9
              (clean sample_db) (clean sample_db) (clean sample_db)
              ∅ sample_sessions1 sample_sessions2
              (sample_reply "T1") (sample_reply "T2")
              eq_refl H1 H2 Hne Hnow))))).
Defined.

(** C9.  [user_logout] never looks at the token of the request: it
    removes the entry of the e-mail address, if there is one, and answers
    "logged_out".  So after a login that drew [T], a logout carrying any
    token [X] leaves no session for the address, and validating with [T]
    answers 401. *)
Theorem logout_ignores_token (req : SessionValidationRequest)
    (active_sessions : gmap string session) :
  user_logout req active_sessions
  = ({| reply_code := 200; reply_status := "logged_out" |},
     delete (svr_email req) active_sessions)
  /\ snd (user_logout req active_sessions) !! svr_email req = None
  /\ (forall token',
        user_logout {| svr_email := svr_email req; svr_session_id := token' |}
          active_sessions
        = user_logout req active_sessions)
  /\ (forall request T X utcnow later w w' s0 r,
        login request T utcnow w s0 = (inr r, w', active_sessions) ->
        (exists s, active_sessions !! lr_email request = Some s
                   /\ session_id s = T)
        /\ snd (user_logout
                  {| svr_email := lr_email request; svr_session_id := X |}
                  active_sessions) !! lr_email request = None
        /\ fst (validate_session
                  {| svr_email := lr_email request; svr_session_id := T |}
                  later
                  (snd (user_logout
                          {| svr_email := lr_email request;
                             svr_session_id := X |}
                          active_sessions)))
           = {| reply_code := Unauthorized; reply_status := "invalid" |}).
Proof.
  split; [reflexivity|].
  split; [apply lookup_delete_eq|].
  split; [reflexivity|].
  intros request T X utcnow later w w' s0 r Hlogin.
  apply login_success in Hlogin. destruct Hlogin as [_ Hs].
  set (email := lr_email request) in *.
  set (s' := snd (user_logout {| svr_email := email; svr_session_id := X |}
                    active_sessions)).
  assert (Hgone : s' !! email = None) by apply lookup_delete_eq.
  split.
  - eexists. split; [rewrite Hs; apply lookup_insert_eq | reflexivity].
  - split; [exact Hgone|].
    now rewrite (validate_session_no_session _ _ _ _ Hgone).
Qed.

Lemma logout_ignores_token_witness :
  login sample_login "T1" 0 (clean sample_db) ∅
  = (inr (sample_reply "T1"), clean sample_db, sample_sessions1)
  /\ (exists s, sample_sessions1 !! "a@x" = Some s /\ session_id s = "T1")
  /\ snd (user_logout {| svr_email := "a@x"; svr_session_id := "X" |}
            sample_sessions1) !! "a@x" = None
  /\ fst (validate_session {| svr_email := "a@x"; svr_session_id := "T1" |} 1
            (snd (user_logout {| svr_email := "a@x"; svr_session_id := "X" |}
                    sample_sessions1)))
     = {| reply_code := Unauthorized; reply_status := "invalid" |}.
Proof.
  assert (H : login sample_login "T1" 0 (clean sample_db) ∅
              = (inr (sample_reply "T1"), clean sample_db, sample_sessions1))
    by reflexivity.
  split; [exact H|].
  exact (proj2 (proj2 (proj2
           (logout_ignores_token
              {| svr_email := "a@x"; svr_session_id := "X" |}
              sample_sessions1)))
           sample_login "T1" "X" 0 1 (clean sample_db) (clean sample_db) ∅
           (sample_reply "T1") H).
Defined.

(** The reply of [login] to an unknown e-mail address. *)
Lemma login_unknown_email request uuid4 utcnow w w'
    (sessions : gmap string session) :
  get_user_by_email (lr_email request) w = (None, w') ->
  login request uuid4 utcnow w sessions
  = (inl (HTTPException Unauthorized "Invalid email or password"), w', sessions).
Proof. intros H. unfold login. rewrite H. reflexivity. Qed.

(** The reply of [login] to a wrong password. *)
Lemma login_wrong_password request uuid4 utcnow w w' u
    (sessions : gmap string session) :
  get_user_by_email (lr_email request) w = (Some u, w') ->
  password_differs (user_password u) (lr_password request) = true ->
  login request uuid4 utcnow w sessions
  = (inl (HTTPException Unauthorized "Invalid email or password"), w', sessions).
Proof. intros H Hp. unfold login. rewrite H, Hp. reflexivity. Qed.

(** C10.  When the lookup of the user raises, whatever the exception,
    [get_user_by_email] returns [None] and [login] answers with the 401
    "Invalid email or password" it gives to an unknown address or a wrong
    password, not with a 500; no session is stored. *)
Theorem login_lookup_failure_unauthorized (request : LoginRequest)
    (uuid4 : string) (utcnow : Z) (w w' : world) (e : exn)
    (sessions : gmap string session) :
  fetch_user (lr_email request) w = (inl e, w') ->
  get_user_by_email (lr_email request) w = (None, w')
  /\ login request uuid4 utcnow w sessions
     = (inl (HTTPException Unauthorized "Invalid email or password"),
        w', sessions)
  /\ Unauthorized <> InternalError.
Proof.
  intros H.
  assert (Hg : get_user_by_email (lr_email request) w = (None, w'))
    by (unfold get_user_by_email; rewrite H; reflexivity).
  split; [exact Hg|].
  split; [now apply login_unknown_email | discriminate].
Qed.

Lemma login_lookup_failure_unauthorized_witness :
  fetch_user (lr_email sample_login) sample_down
  = (inl (Error "connection refused"), clean sample_db)
  /\ get_user_by_email (lr_email sample_login) sample_down
     = (None, clean sample_db)
  /\ login sample_login "T1" 0 sample_down ∅
     = (inl (HTTPException Unauthorized "Invalid email or password"),
        clean sample_db, ∅)
  /\ Unauthorized <> InternalError.
Proof.
  assert (H : fetch_user (lr_email sample_login) sample_down
              = (inl (Error "connection refused"), clean sample_db))
    by reflexivity.
  split; [exact H|].
  exact (login_lookup_failure_unauthorized sample_login "T1" 0 sample_down
           (clean sample_db) (Error "connection refused") ∅ H).
Defined.

(* ===================================================================== *)
(** * Properties of the record serializer *)
(* ===================================================================== *)

(** ** Formatting of numbers *)

(** A property of the bounded numbers, checked on each of them. *)
Lemma forall_below (bound : N) (P : N -> bool) :
  forallb (fun k => P (N.of_nat k)) (seq 0 (N.to_nat bound)) = true ->
  forall n : N, (n < bound)%N -> P n = true.
Proof.
  intros H n Hn. rewrite forallb_forall in H.
  rewrite <- (N2Nat.id n). apply H. apply in_seq. lia.
Qed.

Lemma fmt_d_two_digits (n : N) : (n < 100)%N -> fmt_d 2 n = two_digits n.
Proof.
  intros Hn. apply String.eqb_eq.
  apply (forall_below 100 (fun n => String.eqb (fmt_d 2 n) (two_digits n)));
    [vm_compute; reflexivity | exact Hn].
Qed.

Lemma fmt_d_four_digits (n : N) : (n < 10000)%N -> fmt_d 4 n = four_digits n.
Proof.
  intros Hn. apply String.eqb_eq.
  apply (forall_below 10000 (fun n => String.eqb (fmt_d 4 n) (four_digits n)));
    [vm_compute; reflexivity | exact Hn].
Qed.

(** For the fields of a calendar day, [date.isoformat()] is the ISO 8601
    form [YYYY-MM-DD]. *)
Lemma date_isoformat_iso8601 (d : date) :
  date_in_range d -> date_isoformat d = iso8601_date d.
Proof.
  intros [Hy [Hm Hd]]. unfold date_isoformat, iso8601_date.
  rewrite fmt_d_four_digits by lia.
  rewrite !fmt_d_two_digits by lia. reflexivity.
Qed.


(** ** Rows *)






Lemma dict_get_absent (k : string) (d : dict) :
  ~ In k (dict_keys d) -> dict_get k d = None.
Proof.
  induction d as [|[k' v'] d IH]; simpl; intros H; [reflexivity|].
  destruct (String.eqb_spec k' k) as [E|E]; [exfalso; apply H; now left|].
  apply IH. intros Hin. apply H. now right.
Qed.

Lemma new_key_not_image_url (k : string) : new_key k <> "image_url".
Proof.
  unfold new_key. destruct (String.eqb_spec k "image_url"); [discriminate|].
  assumption.
Qed.


(** ** The claim on the serializer *)




(* ===================================================================== *)
(** * Further properties of the handlers on the store *)
(* ===================================================================== *)

Lemma has_client_fetchone (id : Z) (d : db) :
  has_client id d ->
  fetchone (fst (select_1_from_active_clients id d)) = Some 1.
Proof.
  intros [r [Hr E]]. unfold select_1_from_active_clients; simpl.
  rewrite fetchone_where.
  destruct (find_present (fun r => (ac_id r =? id)%Z) _ r Hr) as [r0 ->];
    [now apply Z.eqb_eq | reflexivity].
Qed.

Lemma has_quickcontact_fetchone (id : Z) (d : db) :
  has_quickcontact id d ->
  fetchone (fst (select_1_from_quickcontact id d)) = Some 1.
Proof.
  intros H. destruct (has_quickcontact_find id d H) as [c Hc].
  now destruct (has_contact_fetchone id d c Hc).
Qed.

(** The run of [complete_client_project] in which no round trip fails. *)
Lemma complete_client_project_present (d : db) (id : Z) :
  has_client id d ->
  complete_client_project id (clean d)
  = (inr {| status := "success";
            message := "Client project marked as completed." |},
     clean (snd (update_status_completed id d))).
Proof.
  intros H. apply has_client_fetchone in H. simpl in H.
  unfold_handler. cbn. rewrite H. reflexivity.
Qed.

Lemma update_status_completed_twice (id : Z) (d : db) :
  snd (update_status_completed id (snd (update_status_completed id d)))
  = snd (update_status_completed id d).
Proof.
  unfold update_status_completed; simpl. f_equal.
  rewrite map_map. apply map_ext. intros r.
  destruct (ac_id r =? id)%Z eqn:E; simpl; rewrite E; reflexivity.
Qed.

Lemma update_status_completed_ids (id : Z) (d : db) :
  map ac_id (active_clients (snd (update_status_completed id d)))
  = map ac_id (active_clients d).
Proof.
  simpl. rewrite map_map. apply map_ext. intros r.
  destruct (ac_id r =? id)%Z; reflexivity.
Qed.

Lemma has_client_after_update (id : Z) (d : db) :
  has_client id d -> has_client id (snd (update_status_completed id d)).
Proof.
  intros [r [Hr E]].
  exists (set_completed r). split; [|exact E].
  simpl. apply in_map_iff. exists r. split; [|exact Hr].
  apply Z.eqb_eq in E. now rewrite E.
Qed.

(** X1.  On an id that is in [active_clients], [complete_client_project]
    returns success; afterwards every row with that id has the status
    [completed], every other row is as it was, the table has the same
    keys in the same order (no row is added or deleted) and the other
    tables are untouched. *)
Theorem complete_client_project_marks_completed (d : db) (id : Z) :
  has_client id d ->
  exists d',
    complete_client_project id (clean d)
    = (inr {| status := "success";
              message := "Client project marked as completed." |}, clean d')
    /\ map ac_id (active_clients d') = map ac_id (active_clients d)
    /\ (forall r, In r (active_clients d') -> ac_id r = id ->
                  ac_status r = "completed")
    /\ (forall r, ac_id r <> id ->
                  (In r (active_clients d') <-> In r (active_clients d)))
    /\ enquiries d' = enquiries d
    /\ quickcontact d' = quickcontact d
    /\ users d' = users d.
Proof.
  intros H. exists (snd (update_status_completed id d)).
  split; [now apply complete_client_project_present|].
  split; [apply update_status_completed_ids|].
  split.
  { intros r Hr E. simpl in Hr. apply in_map_iff in Hr.
    destruct Hr as [r0 [Hr0 _]].
    destruct (ac_id r0 =? id)%Z eqn:E0; subst r; [reflexivity|].
    apply Z.eqb_neq in E0. contradiction. }
  split; [|repeat split; reflexivity].
  intros r Hne. simpl. rewrite in_map_iff. split.
  - intros [r0 [Hr0 Hin]].
    destruct (ac_id r0 =? id)%Z eqn:E0; subst r; [|exact Hin].
    apply Z.eqb_eq in E0. simpl in Hne. contradiction.
  - intros Hin. exists r. split; [|exact Hin].
    apply Z.eqb_neq in Hne. now rewrite Hne.
Qed.

Lemma sample_client_db_has_client : has_client 10 sample_client_db.
Proof.
  exists (enquiry_client_row sample_generated sample_project).
  split; [left; reflexivity | reflexivity].
Defined.

Lemma complete_client_project_marks_completed_witness :
  has_client 10 sample_client_db
  /\ exists d',
       complete_client_project 10 (clean sample_client_db)
       = (inr {| status := "success";
                 message := "Client project marked as completed." |}, clean d')
       /\ map ac_id (active_clients d') = map ac_id (active_clients sample_client_db)
       /\ (forall r, In r (active_clients d') -> ac_id r = 10 ->
                     ac_status r = "completed")
       /\ (forall r, ac_id r <> 10 ->
                     (In r (active_clients d')
                      <-> In r (active_clients sample_client_db)))
       /\ enquiries d' = enquiries sample_client_db
       /\ quickcontact d' = quickcontact sample_client_db
       /\ users d' = users sample_client_db.
Proof.
  split; [exact sample_client_db_has_client|].
  exact (complete_client_project_marks_completed sample_client_db 10
           sample_client_db_has_client).
Defined.

(** X2.  [complete_client_project] can be repeated: on an id that is in
    the table a second call right after the first succeeds as well (the
    row is still there, unlike after a deny) and leaves the store exactly
    as the first call left it. *)
Theorem complete_client_project_twice (d : db) (id : Z) :
  has_client id d ->
  exists d',
    complete_client_project id (clean d)
    = (inr {| status := "success";
              message := "Client project marked as completed." |}, clean d')
    /\ has_client id d'
    /\ complete_client_project id (clean d')
       = (inr {| status := "success";
                 message := "Client project marked as completed." |}, clean d').
Proof.
  intros H. exists (snd (update_status_completed id d)).
  pose proof (has_client_after_update id d H) as H'.
  split; [now apply complete_client_project_present|].
  split; [exact H'|].
  rewrite (complete_client_project_present _ id H').
  now rewrite update_status_completed_twice.
Qed.

Lemma complete_client_project_twice_witness :
  has_client 10 sample_client_db
  /\ exists d',
       complete_client_project 10 (clean sample_client_db)
       = (inr {| status := "success";
                 message := "Client project marked as completed." |}, clean d')
       /\ has_client 10 d'
       /\ complete_client_project 10 (clean d')
          = (inr {| status := "success";
                    message := "Client project marked as completed." |},
             clean d').
Proof.
  split; [exact sample_client_db_has_client|].
  exact (complete_client_project_twice sample_client_db 10
           sample_client_db_has_client).
Defined.

(** X3.  The handlers that check and then write once are all or nothing
    whatever round trips fail: on an id that is in the table,
    [deny_enquiry], [deny_quickcontact] and [complete_client_project]
    either raise a 500 and leave the store as it was, or return and leave
    exactly the store of their one statement.  They never answer
    [NotFound] there. *)
Theorem checked_writes_all_or_nothing (d : db) (id : Z) (fs : list outcome) :
  (has_enquiry id d ->
   let '(r, w') := deny_enquiry id {| storage := d; faults := fs |} in
   ((exists detail, r = inl (HTTPException InternalError detail))
    /\ storage w' = d)
   \/ ((exists m, r = inr m)
       /\ storage w' = snd (delete_from_enquiries id d)))
  /\
  (has_quickcontact id d ->
   let '(r, w') := deny_quickcontact id {| storage := d; faults := fs |} in
   ((exists detail, r = inl (HTTPException InternalError detail))
    /\ storage w' = d)
   \/ ((exists m, r = inr m)
       /\ storage w' = snd (delete_from_quickcontact id d)))
  /\
  (has_client id d ->
   let '(r, w') :=
     complete_client_project id {| storage := d; faults := fs |} in
   ((exists detail, r = inl (HTTPException InternalError detail))
    /\ storage w' = d)
   \/ ((exists m, r = inr m)
       /\ storage w' = snd (update_status_completed id d))).
Proof.
  split; [|split]; intros H.
  - apply has_enquiry_fetchone in H. simpl in H.
    unfold InternalError. unfold_handler. cbn.
    six_outcomes fs; rewrite ?H; cbn; eauto 6.
  - apply has_quickcontact_fetchone in H. simpl in H.
    unfold InternalError. unfold_handler. cbn.
    six_outcomes fs; rewrite ?H; cbn; eauto 6.
  - apply has_client_fetchone in H. simpl in H.
    unfold InternalError. unfold_handler. cbn.
    six_outcomes fs; rewrite ?H; cbn; eauto 6.
Qed.

Lemma checked_writes_all_or_nothing_witness :
  has_enquiry 1 sample_db /\ has_quickcontact 1 sample_db
  /\ has_client 10 sample_client_db
  /\ (let '(r, w') :=
        deny_enquiry 1 {| storage := sample_db;
                          faults := [Ok; Ok; Ok; Fails "connection lost"] |} in
      ((exists detail, r = inl (HTTPException InternalError detail))
       /\ storage w' = sample_db)
      \/ ((exists m, r = inr m)
          /\ storage w' = snd (delete_from_enquiries 1 sample_db)))
  /\ (let '(r, w') :=
        deny_quickcontact 1 {| storage := sample_db;
                               faults := [Ok; Ok; Fails "deadlock"] |} in
      ((exists detail, r = inl (HTTPException InternalError detail))
       /\ storage w' = sample_db)
      \/ ((exists m, r = inr m)
          /\ storage w' = snd (delete_from_quickcontact 1 sample_db)))
  /\ (let '(r, w') :=
        complete_client_project 10 {| storage := sample_client_db;
                                      faults := [Ok; Ok; Ok; Ok] |} in
      ((exists detail, r = inl (HTTPException InternalError detail))
       /\ storage w' = sample_client_db)
      \/ ((exists m, r = inr m)
          /\ storage w' = snd (update_status_completed 10 sample_client_db))).
Proof.
  split; [exact sample_db_has_enquiry|].
  split; [exact sample_db_has_quickcontact|].
  split; [exact sample_client_db_has_client|].
  split; [|split].
  - exact (proj1 (checked_writes_all_or_nothing sample_db 1
                    [Ok; Ok; Ok; Fails "connection lost"])
                 sample_db_has_enquiry).
  - exact (proj1 (proj2 (checked_writes_all_or_nothing sample_db 1
                           [Ok; Ok; Fails "deadlock"]))
                 sample_db_has_quickcontact).
  - exact (proj2 (proj2 (checked_writes_all_or_nothing sample_client_db 10
                           [Ok; Ok; Ok; Ok]))
                 sample_client_db_has_client).
Defined.









(** ** The counts of the dashboard *)

Lemma count_where_cons {A} (f : A -> bool) (a : A) (l : list A) :
  count_where f (a :: l) = (if f a then 1 else 0) + count_where f l.
Proof.
  unfold count_where. simpl. destruct (f a); simpl; lia.
Qed.


Lemma count_where_bounds {A} (f : A -> bool) (l : list A) :
  0 <= count_where f l <= Z.of_nat (List.length l).
Proof.
  induction l as [|a l IH]; [unfold count_where; simpl; lia|].
  rewrite count_where_cons. simpl List.length. destruct (f a); lia.
Qed.


Lemma count_where_disjoint {A} (f g : A -> bool) (l : list A) :
  (forall a, f a = true -> g a = false) ->
  count_where f l + count_where g l <= Z.of_nat (List.length l).
Proof.
  intros H. induction l as [|a l IH]; [unfold count_where; simpl; lia|].
  rewrite !count_where_cons. simpl List.length.
  destruct (f a) eqn:Ef; [rewrite (H a Ef)|destruct (g a)]; lia.
Qed.

(** The run of [get_admin_stats] in which no round trip fails. *)
Lemma get_admin_stats_clean (current_date : date) (d : db) :
  get_admin_stats current_date (clean d)
  = (inr (admin_counts current_date d), clean d).
Proof. reflexivity. Qed.

(** X7.  [get_admin_stats] only reads: whatever round trips fail, the
    store is as it was, and the handler either raises a 500 or returns the
    counts of that store.  The counts are not negative, and the active and
    the completed projects together are no more than the rows of
    [active_clients]. *)
Theorem get_admin_stats_read_only (current_date : date) (d : db)
    (fs : list outcome) :
  let '(r, w') := get_admin_stats current_date {| storage := d; faults := fs |} in
  storage w' = d
  /\ ((exists detail, r = inl (HTTPException InternalError detail))
      \/ r = inr (admin_counts current_date d))
  /\ fst (get_admin_stats current_date (clean d))
     = inr (admin_counts current_date d)
  /\ 0 <= new_enquiries (admin_counts current_date d)
     <= Z.of_nat (List.length (enquiries d))
        + Z.of_nat (List.length (quickcontact d))
  /\ 0 <= active_projects (admin_counts current_date d)
  /\ 0 <= completed_projects (admin_counts current_date d)
  /\ active_projects (admin_counts current_date d)
     + completed_projects (admin_counts current_date d)
     <= Z.of_nat (List.length (active_clients d)).
Proof.
  assert (Hbounds :
    0 <= new_enquiries (admin_counts current_date d)
      <= Z.of_nat (List.length (enquiries d))
         + Z.of_nat (List.length (quickcontact d))
    /\ 0 <= active_projects (admin_counts current_date d)
    /\ 0 <= completed_projects (admin_counts current_date d)
    /\ active_projects (admin_counts current_date d)
       + completed_projects (admin_counts current_date d)
       <= Z.of_nat (List.length (active_clients d))).
  { unfold admin_counts; simpl.
    pose proof (count_where_bounds
                  (fun r => date_eqb (dt_date (enq_submitted_at r)) current_date)
                  (enquiries d)).
    pose proof (count_where_bounds
                  (fun r => date_eqb (dt_date (qc_created_at r)) current_date)
                  (quickcontact d)).
    pose proof (count_where_bounds
                  (fun r => String.eqb (ac_status r) "active")
                  (active_clients d)).
    pose proof (count_where_bounds
                  (fun r => String.eqb (ac_status r) "completed")
                  (active_clients d)).
    split; [lia|]. split; [lia|]. split; [lia|].
    apply count_where_disjoint. intros a Ha.
    apply String.eqb_eq in Ha. rewrite Ha. reflexivity. }
  unfold get_admin_stats, any_exception_as_500, InternalError.
  unfold_handler. cbn.
  six_outcomes fs;
    (split; [reflexivity|]; split; [eauto|]; split; [reflexivity|];
     exact Hbounds).
Qed.

Lemma completed_is_not_active (r : active_client_row) :
  String.eqb (ac_status (set_completed r)) "active" = false
  /\ String.eqb (ac_status (set_completed r)) "completed" = true.
Proof. split; reflexivity. Qed.

Lemma update_status_completed_absent (id : Z) (l : list active_client_row) :
  ~ In id (map ac_id l) ->
  map (fun r => if (ac_id r =? id)%Z then set_completed r else r) l = l.
Proof.
  induction l as [|a l IH]; simpl; intros H; [reflexivity|].
  destruct (ac_id a =? id)%Z eqn:E.
  - apply Z.eqb_eq in E. exfalso. apply H. now left.
  - f_equal. apply IH. intros Hin. apply H. now right.
Qed.

Lemma completion_counts (id : Z) (r : active_client_row)
    (l : list active_client_row) :
  List.NoDup (map ac_id l) -> In r l -> ac_id r = id ->
  ac_status r = "active" ->
  let l' := map (fun r => if (ac_id r =? id)%Z then set_completed r else r) l in
  count_where (fun r => String.eqb (ac_status r) "active") l'
  = count_where (fun r => String.eqb (ac_status r) "active") l - 1
  /\ count_where (fun r => String.eqb (ac_status r) "completed") l'
     = count_where (fun r => String.eqb (ac_status r) "completed") l + 1.
Proof.
  intros Hnd Hin Hid Hst. induction l as [|a l IH]; [contradiction|].
  simpl in Hnd. apply NoDup_cons_iff in Hnd. destruct Hnd as [Ha Hnd].
  cbn zeta. simpl map. rewrite !count_where_cons.
  destruct (ac_id a =? id)%Z eqn:E.
  - apply Z.eqb_eq in E.
    assert (a = r).
    { destruct Hin as [Hin|Hin]; [exact Hin|].
      exfalso. apply Ha. rewrite E, <- Hid. now apply in_map. }
    subst a. rewrite update_status_completed_absent by (now rewrite <- E).
    destruct (completed_is_not_active r) as [-> ->].
    rewrite Hst. simpl. lia.
  - destruct Hin as [Hin|Hin].
    + subst a. apply Z.eqb_neq in E. contradiction.
    + destruct (IH Hnd Hin) as [IH1 IH2]. cbn zeta in IH1, IH2.
      rewrite IH1, IH2. lia.
Qed.



(** X9.  Completing a project moves it on the dashboard: when the keys of
    [active_clients] are pairwise distinct and the row with the id has the
    status [active], after [complete_client_project] the dashboard reports
    one active project fewer, one completed project more and the same new
    enquiries. *)
Theorem complete_client_project_counts (d : db) (id : Z)
    (r : active_client_row) (current_date : date) :
  List.NoDup (map ac_id (active_clients d)) ->
  In r (active_clients d) -> ac_id r = id -> ac_status r = "active" ->
  exists d',
    complete_client_project id (clean d)
    = (inr {| status := "success";
              message := "Client project marked as completed." |}, clean d')
    /\ active_projects (admin_counts current_date d')
       = active_projects (admin_counts current_date d) - 1
    /\ completed_projects (admin_counts current_date d')
       = completed_projects (admin_counts current_date d) + 1
    /\ new_enquiries (admin_counts current_date d')
       = new_enquiries (admin_counts current_date d).
Proof.
  intros Hnd Hin Hid Hst.
  exists (snd (update_status_completed id d)).
  split.
  { apply complete_client_project_present. now exists r. }
  destruct (completion_counts id r (active_clients d) Hnd Hin Hid Hst)
    as [Ha Hc].
  unfold admin_counts; simpl. split; [exact Ha|]. split; [exact Hc | reflexivity].
Qed.

Lemma sample_client_db_distinct :
  List.NoDup (map ac_id (active_clients sample_client_db)).
Proof.
  apply List.NoDup_cons; [simpl; tauto | apply List.NoDup_nil].
Defined.

Lemma complete_client_project_counts_witness :
  List.NoDup (map ac_id (active_clients sample_client_db))
  /\ In (enquiry_client_row sample_generated sample_project)
        (active_clients sample_client_db)
  /\ exists d',
       complete_client_project 10 (clean sample_client_db)
       = (inr {| status := "success";
                 message := "Client project marked as completed." |}, clean d')
       /\ active_projects (admin_counts (dt_date sample_instant) d')
          = active_projects
              (admin_counts (dt_date sample_instant) sample_client_db) - 1
       /\ completed_projects (admin_counts (dt_date sample_instant) d')
          = completed_projects
              (admin_counts (dt_date sample_instant) sample_client_db) + 1
       /\ new_enquiries (admin_counts (dt_date sample_instant) d')
          = new_enquiries
              (admin_counts (dt_date sample_instant) sample_client_db).
Proof.
  split; [exact sample_client_db_distinct|].
  split; [left; reflexivity|].
  exact (complete_client_project_counts sample_client_db 10
           (enquiry_client_row sample_generated sample_project)
           (dt_date sample_instant) sample_client_db_distinct
           (or_introl eq_refl) eq_refl eq_refl).
Defined.

(** X10.  [ping] answers whatever the database does: with every outcome
    there is the status is "Server is alive!", the time is the one of the
    process and the store is as it was.  The database time is reported
    exactly when the database status is "alive", and then it is the clock
    of the server in ISO form; when no round trip fails that is the
    case. *)
Theorem ping_always_answers (db_now utcnow : datetime) (d : db)
    (fs : list outcome) :
  let '(reply, w') := ping db_now utcnow {| storage := d; faults := fs |} in
  ping_status reply = "Server is alive!"
  /\ ping_time reply = datetime_isoformat utcnow
  /\ storage w' = d
  /\ ((ping_db_status reply = "alive"
       /\ ping_db_time reply = Some (datetime_isoformat db_now))
      \/ ((exists msg, ping_db_status reply = "error - " +:+ msg)
          /\ ping_db_time reply = None))
  /\ ping db_now utcnow (clean d)
     = ({| ping_status := "Server is alive!"; ping_db_status := "alive";
           ping_time := datetime_isoformat utcnow;
           ping_db_time := Some (datetime_isoformat db_now) |}, clean d).
Proof.
  unfold ping. unfold_handler. cbn.
  six_outcomes fs; repeat (split; [reflexivity|]);
    (split; [|reflexivity]); eauto.
Qed.



(* ===================================================================== *)
(** * Further properties of the session registry *)
(* ===================================================================== *)

(** In a world where no round trip fails, [get_user_by_email] returns the
    first row of [users] with the address. *)
Lemma get_user_by_email_clean (email : string) (d : db) :
  get_user_by_email email (clean d)
  = (List.find (fun u => String.eqb (user_email u) email) (users d), clean d).
Proof.
  unfold get_user_by_email. unfold_handler. cbn.
  rewrite <- (map_id (List.filter _ _)), fetchone_where.
  now destruct (List.find _ _).
Qed.

(** A login that raises stores nothing. *)
Lemma login_failure_keeps_sessions request uuid4 utcnow w
    (sessions : gmap string session) e w' s' :
  login request uuid4 utcnow w sessions = (inl e, w', s') -> s' = sessions.
Proof.
  unfold login.
  destruct (get_user_by_email (lr_email request) w) as [[u|] w1].
  - destruct (password_differs _ _); [now intros [= _ _ <-]|].
    destruct (datetime_add _ _); [now intros [= _ _ <-] | discriminate].
  - now intros [= _ _ <-].
Qed.

(** What a validation that answers 401 leaves behind. *)
Lemma validate_session_unauthorized_shape (req : SessionValidationRequest)
    (utcnow : Z) (active_sessions : gmap string session) :
  reply_code (fst (validate_session req utcnow active_sessions)) = Unauthorized ->
  fst (validate_session req utcnow active_sessions)
  = {| reply_code := 401; reply_status := "invalid" |}
  /\ snd (validate_session req utcnow active_sessions)
     = delete (svr_email req) active_sessions
  /\ snd (validate_session req utcnow active_sessions) !! svr_email req = None.
Proof.
  unfold validate_session, Unauthorized.
  destruct (active_sessions !! svr_email req) as [s|]; simpl.
  - destruct (negb _ || _); simpl; [|discriminate].
    intros _. repeat split. apply lookup_delete_eq.
  - intros _. repeat split. apply lookup_delete_eq.
Qed.

(** X11.  A validation that fails ends the session for everybody: once
    [validate_session] has answered 401 for an e-mail address, every
    validation for that address on the map it left answers 401, whatever
    the token and the time.  In particular, after a login that drew [T],
    one request with a wrong token makes the next validation with [T]
    itself fail. *)
Theorem failed_validation_ends_session (req : SessionValidationRequest)
    (utcnow : Z) (active_sessions : gmap string session) :
  (reply_code (fst (validate_session req utcnow active_sessions)) = Unauthorized ->
   forall token later,
     validate_session {| svr_email := svr_email req; svr_session_id := token |}
       later (snd (validate_session req utcnow active_sessions))
     = ({| reply_code := Unauthorized; reply_status := "invalid" |},
        snd (validate_session req utcnow active_sessions)))
  /\
  (forall request T now w w' s0 r later,
     login request T now w s0 = (inr r, w', active_sessions) ->
     svr_email req = lr_email request ->
     svr_session_id req <> T ->
     fst (validate_session req utcnow active_sessions)
     = {| reply_code := Unauthorized; reply_status := "invalid" |}
     /\ fst (validate_session
               {| svr_email := lr_email request; svr_session_id := T |} later
               (snd (validate_session req utcnow active_sessions)))
        = {| reply_code := Unauthorized; reply_status := "invalid" |}).
Proof.
  assert (Hgen :
    reply_code (fst (validate_session req utcnow active_sessions)) = Unauthorized ->
    forall token later,
      validate_session {| svr_email := svr_email req; svr_session_id := token |}
        later (snd (validate_session req utcnow active_sessions))
      = ({| reply_code := Unauthorized; reply_status := "invalid" |},
         snd (validate_session req utcnow active_sessions))).
  { intros H token later.
    pose proof (validate_session_unauthorized_shape req utcnow active_sessions H)
      as [_ [Hs Hgone]].
    rewrite (validate_session_no_session _ _ _ _ Hgone).
    f_equal. apply delete_id. exact Hgone. }
  split; [exact Hgen|].
  intros request T now w w' s0 r later Hlogin Hmail Hne.
  apply login_success in Hlogin. destruct Hlogin as [_ Hs].
  assert (Hl : active_sessions !! svr_email req
               = Some {| session_id := T;
                         expires_at :=
                           now + timedelta_minutes SESSION_DURATION_MINUTES |}).
  { rewrite Hs, Hmail. apply lookup_insert_eq. }
  assert (H1 : validate_session req utcnow active_sessions
               = ({| reply_code := 401; reply_status := "invalid" |},
                  delete (svr_email req) active_sessions)).
  { destruct req as [em tok]. simpl in *.
    apply (validate_session_wrong_token _ _ _ _ _ Hl). simpl. congruence. }
  split; [now rewrite H1|].
  rewrite <- Hmail. rewrite Hgen; [reflexivity | now rewrite H1].
Qed.

Lemma failed_validation_ends_session_witness :
  reply_code
    (fst (validate_session {| svr_email := "a@x"; svr_session_id := "guess" |}
            1 sample_sessions1)) = Unauthorized
  /\ validate_session {| svr_email := "a@x"; svr_session_id := "T1" |} 2
       (snd (validate_session
               {| svr_email := "a@x"; svr_session_id := "guess" |} 1
               sample_sessions1))
     = ({| reply_code := Unauthorized; reply_status := "invalid" |},
        snd (validate_session
               {| svr_email := "a@x"; svr_session_id := "guess" |} 1
               sample_sessions1))
  /\ login sample_login "T1" 0 (clean sample_db) ∅
     = (inr (sample_reply "T1"), clean sample_db, sample_sessions1)
  /\ "guess" <> "T1"
  /\ fst (validate_session {| svr_email := "a@x"; svr_session_id := "guess" |}
            1 sample_sessions1)
     = {| reply_code := Unauthorized; reply_status := "invalid" |}
  /\ fst (validate_session {| svr_email := "a@x"; svr_session_id := "T1" |} 2
            (snd (validate_session
                    {| svr_email := "a@x"; svr_session_id := "guess" |} 1
                    sample_sessions1)))
     = {| reply_code := Unauthorized; reply_status := "invalid" |}.
Proof.
  assert (H401 :
    reply_code
      (fst (validate_session {| svr_email := "a@x"; svr_session_id := "guess" |}
              1 sample_sessions1)) = Unauthorized) by reflexivity.
  assert (Hlogin : login sample_login "T1" 0 (clean sample_db) ∅
                   = (inr (sample_reply "T1"), clean sample_db,
                      sample_sessions1)) by reflexivity.
  assert (Hne : "guess" <> "T1") by discriminate.
  split; [exact H401|].
  split.
  { exact (proj1 (failed_validation_ends_session
                    {| svr_email := "a@x"; svr_session_id := "guess" |} 1
                    sample_sessions1) H401 "T1" 2). }
  split; [exact Hlogin|]. split; [exact Hne|].
  exact (proj2 (failed_validation_ends_session
                  {| svr_email := "a@x"; svr_session_id := "guess" |} 1
                  sample_sessions1)
           sample_login "T1" 0 (clean sample_db) (clean sample_db) ∅
           (sample_reply "T1") 2 Hlogin eq_refl Hne).
Defined.

(** X12.  A session lasts 1080 minutes to the microsecond: after a login
    at the instant [now] that drew [T], validating with [T] at the instant
    [t] answers "valid" exactly when [t] is no later than [now] plus
    64 800 000 000 microseconds; the comparison with the expiry is
    strict, so the instant of expiry itself is still valid. *)
Theorem session_lifetime (request : LoginRequest) (T : string) (now t : Z)
    (w w' : world) (s0 s1 : gmap string session) (r : LoginResponse) :
  login request T now w s0 = (inr r, w', s1) ->
  timedelta_minutes SESSION_DURATION_MINUTES = 64800000000
  /\ (fst (validate_session
             {| svr_email := lr_email request; svr_session_id := T |} t s1)
      = {| reply_code := 200; reply_status := "valid" |}
      <-> t <= now + 64800000000)
  /\ (fst (validate_session
             {| svr_email := lr_email request; svr_session_id := T |} t s1)
      = {| reply_code := Unauthorized; reply_status := "invalid" |}
      <-> now + 64800000000 < t).
Proof.
  intros Hlogin. apply login_success in Hlogin. destruct Hlogin as [_ Hs].
  split; [reflexivity|].
  assert (Hl : s1 !! lr_email request
               = Some {| session_id := T; expires_at := now + 64800000000 |}).
  { rewrite Hs. apply lookup_insert_eq. }
  unfold validate_session; simpl. rewrite Hl; simpl.
  rewrite String.eqb_refl; simpl.
  destruct (Z.ltb_spec (now + 64800000000) t) as [Hlt|Hge]; simpl.
  - split; split; intros H; try reflexivity; try discriminate; lia.
  - split; split; intros H; try reflexivity; try discriminate; lia.
Qed.

Lemma session_lifetime_witness :
  login sample_login "T1" 0 (clean sample_db) ∅
  = (inr (sample_reply "T1"), clean sample_db, sample_sessions1)
  /\ timedelta_minutes SESSION_DURATION_MINUTES = 64800000000
  /\ (fst (validate_session
             {| svr_email := "a@x"; svr_session_id := "T1" |} 64800000000
             sample_sessions1)
      = {| reply_code := 200; reply_status := "valid" |}
      <-> 64800000000 <= 0 + 64800000000)
  /\ (fst (validate_session
             {| svr_email := "a@x"; svr_session_id := "T1" |} 64800000000
             sample_sessions1)
      = {| reply_code := Unauthorized; reply_status := "invalid" |}
      <-> 0 + 64800000000 < 64800000000).
Proof.
  assert (Hlogin : login sample_login "T1" 0 (clean sample_db) ∅
                   = (inr (sample_reply "T1"), clean sample_db,
                      sample_sessions1)) by reflexivity.
  split; [exact Hlogin|].
  exact (session_lifetime sample_login "T1" 0 64800000000 (clean sample_db)
           (clean sample_db) ∅ sample_sessions1 (sample_reply "T1") Hlogin).
Defined.

(** X13.  The three session handlers touch one entry of the map only:
    after [login], [validate_session] or [user_logout] for one e-mail
    address, whether it succeeds or fails, the entry of every other
    address is what it was. *)
Theorem other_sessions_untouched (other : string)
    (active_sessions : gmap string session) :
  (forall request uuid4 utcnow w,
     other <> lr_email request ->
     snd (login request uuid4 utcnow w active_sessions) !! other
     = active_sessions !! other)
  /\ (forall req utcnow,
        other <> svr_email req ->
        snd (validate_session req utcnow active_sessions) !! other
        = active_sessions !! other)
  /\ (forall req,
        other <> svr_email req ->
        snd (user_logout req active_sessions) !! other
        = active_sessions !! other).
Proof.
  split; [|split].
  - intros request uuid4 utcnow w Hne. unfold login.
    destruct (get_user_by_email (lr_email request) w) as [[u|] w1] eqn:Hu;
      [|reflexivity].
    apply get_user_by_email_found in Hu.
    destruct (password_differs _ _); [reflexivity|].
    destruct (datetime_add _ _); [reflexivity|]. simpl.
    rewrite Hu. apply lookup_insert_ne. congruence.
  - intros req utcnow Hne. unfold validate_session.
    destruct (active_sessions !! svr_email req) as [s|]; simpl.
    + destruct (negb _ || _); simpl; [|reflexivity].
      apply lookup_delete_ne. congruence.
    + apply lookup_delete_ne. congruence.
  - intros req Hne. simpl. apply lookup_delete_ne. congruence.
Qed.

Lemma other_sessions_untouched_witness :
  "a@x" <> "b@x"
  /\ snd (login {| lr_email := "b@x"; lr_password := "p" |} "T9" 7
            (clean sample_db) sample_sessions1) !! "a@x"
     = sample_sessions1 !! "a@x"
  /\ snd (validate_session {| svr_email := "b@x"; svr_session_id := "T1" |} 7
            sample_sessions1) !! "a@x"
     = sample_sessions1 !! "a@x"
  /\ snd (user_logout {| svr_email := "b@x"; svr_session_id := "T1" |}
            sample_sessions1) !! "a@x"
     = sample_sessions1 !! "a@x".
Proof.
  assert (Hne : "a@x" <> "b@x") by discriminate.
  destruct (other_sessions_untouched "a@x" sample_sessions1) as [H1 [H2 H3]].
  split; [exact Hne|].
  split; [exact (H1 {| lr_email := "b@x"; lr_password := "p" |} "T9" 7
                    (clean sample_db) Hne)|].
  split; [exact (H2 {| svr_email := "b@x"; svr_session_id := "T1" |} 7 Hne)|].
  exact (H3 {| svr_email := "b@x"; svr_session_id := "T1" |} Hne).
Defined.

(** X14.  When no round trip fails and the expiry fits the calendar,
    [login] succeeds exactly when the first row of [users] with the
    e-mail address of the request has that very password; a row with no
    password never logs in.  The reply then carries the key of that row
    and the address, and a login that raises, in any world, stores no
    session. *)
Theorem login_succeeds_iff (request : LoginRequest) (uuid4 : string)
    (utcnow : Z) (d : db) (sessions : gmap string session) :
  utcnow + timedelta_minutes SESSION_DURATION_MINUTES <= datetime_max ->
  ((exists r s', login request uuid4 utcnow (clean d) sessions
                 = (inr r, clean d, s'))
   <-> exists u,
         List.find (fun u => String.eqb (user_email u) (lr_email request))
           (users d) = Some u
         /\ user_password u = Some (lr_password request))
  /\ (forall r w' s',
        login request uuid4 utcnow (clean d) sessions = (inr r, w', s') ->
        exists u,
          List.find (fun u => String.eqb (user_email u) (lr_email request))
            (users d) = Some u
          /\ login_user_id r = user_id u
          /\ login_name r = lr_email request
          /\ login_session_id r = uuid4)
  /\ (forall w e w' s',
        login request uuid4 utcnow w sessions = (inl e, w', s') ->
        s' = sessions).
Proof.
  intros Hfit.
  assert (Hadd : datetime_add utcnow (timedelta_minutes SESSION_DURATION_MINUTES)
                 = inr (utcnow + timedelta_minutes SESSION_DURATION_MINUTES)).
  { unfold datetime_add.
    destruct (Z.ltb_spec datetime_max
                (utcnow + timedelta_minutes SESSION_DURATION_MINUTES));
      [lia | reflexivity]. }
  split; [|split].
  - unfold login. rewrite get_user_by_email_clean.
    destruct (List.find _ _) as [u|] eqn:Hf.
    + unfold password_differs.
      destruct (user_password u) as [p|] eqn:Hp.
      * destruct (String.eqb_spec p (lr_password request)) as [E|E]; simpl.
        -- rewrite Hadd. split; [intros _; exists u; split; congruence|].
           intros _. eauto.
        -- split; [intros [r [s' H]]; discriminate|].
           intros [u' [[= <-] Hp']]. congruence.
      * split; [intros [r [s' H]]; discriminate|].
        intros [u' [[= <-] Hp']]. congruence.
    + split; [intros [r [s' H]]; discriminate|].
      intros [u' [H _]]. discriminate.
  - intros r w' s'. unfold login. rewrite get_user_by_email_clean.
    destruct (List.find _ _) as [u|] eqn:Hf; [|discriminate].
    destruct (password_differs _ _); [discriminate|].
    rewrite Hadd. intros [= <- _ _]. exists u. simpl.
    apply find_some in Hf. destruct Hf as [_ Hf]. apply String.eqb_eq in Hf.
    repeat split; assumption.
  - intros w e w' s'. apply login_failure_keeps_sessions.
Qed.

Lemma login_succeeds_iff_witness :
  0 + timedelta_minutes SESSION_DURATION_MINUTES <= datetime_max
  /\ ((exists r s', login sample_login "T1" 0 (clean sample_db) ∅
                    = (inr r, clean sample_db, s'))
      <-> exists u,
            List.find (fun u => String.eqb (user_email u) (lr_email sample_login))
              (users sample_db) = Some u
            /\ user_password u = Some (lr_password sample_login)).
Proof.
  assert (Hfit : 0 + timedelta_minutes SESSION_DURATION_MINUTES <= datetime_max)
    by (vm_compute; discriminate).
  split; [exact Hfit|].
  exact (proj1 (login_succeeds_iff sample_login "T1" 0 sample_db ∅ Hfit)).
Defined.

(* ===================================================================== *)
(** * Further properties of the record serializer *)
(* ===================================================================== *)

Lemma serialize_value_safe (v : value) :
  json_safe (_serialize_value v) = true.
Proof. now destruct v. Qed.

(** X15.  What [_serialize_value] returns is never a [Decimal], a [date]
    or a [datetime], and serializing it once more changes nothing. *)
Theorem serialize_value_json_safe (v : value) :
  json_safe (_serialize_value v) = true
  /\ _serialize_value (_serialize_value v) = _serialize_value v
  /\ (json_safe v = true -> _serialize_value v = v).
Proof. destruct v; simpl; repeat split; auto; discriminate. Qed.

Lemma dict_get_set (k k' : string) (v : value) (d : dict) :
  dict_get k (dict_set k' v d)
  = if String.eqb k' k then Some v else dict_get k d.
Proof.
  induction d as [|[k0 v0] d IH]; simpl.
  - reflexivity.
  - destruct (String.eqb_spec k0 k') as [E|E]; simpl.
    + subst k0. destruct (String.eqb_spec k' k); reflexivity.
    + destruct (String.eqb_spec k0 k) as [E0|E0]; [|exact IH].
      subst k0. destruct (String.eqb_spec k' k); [congruence | reflexivity].
Qed.

Lemma dict_get_app (k : string) (d d' : dict) :
  dict_get k (d ++ d')%list
  = match dict_get k d with
    | Some v => Some v
    | None => dict_get k d'
    end.
Proof.
  induction d as [|[k0 v0] d IH]; simpl; [reflexivity|].
  destruct (String.eqb k0 k); [reflexivity | exact IH].
Qed.

Lemma dict_keys_set (k : string) (v : value) (d : dict) :
  (In k (dict_keys d) /\ dict_keys (dict_set k v d) = dict_keys d)
  \/ (~ In k (dict_keys d)
      /\ dict_keys (dict_set k v d) = (dict_keys d ++ [k])%list).
Proof.
  induction d as [|[k0 v0] d IH]; simpl.
  - right. split; [tauto | reflexivity].
  - destruct (String.eqb_spec k0 k) as [E|E]; simpl.
    + left. split; [now left | reflexivity].
    + destruct IH as [[Hin Hk]|[Hnin Hk]].
      * left. split; [now right | now rewrite Hk].
      * right. split; [tauto | now rewrite Hk].
Qed.

Lemma dict_set_nodup (k : string) (v : value) (d : dict) :
  List.NoDup (dict_keys d) -> List.NoDup (dict_keys (dict_set k v d)).
Proof.
  intros H. destruct (dict_keys_set k v d) as [[_ ->]|[Hnin ->]]; [exact H|].
  apply List.NoDup_app; [exact H | apply List.NoDup_cons; [tauto|constructor] |].
  intros x Hx [<-|[]]. contradiction.
Qed.

(** What the loop of [serialize_row_rename_image] keeps true of [out]. *)
Lemma serialize_row_invariant (row out : dict) :
  let out' :=
    fold_left (fun out kv =>
                 dict_set (new_key (fst kv)) (_serialize_value (snd kv)) out)
              row out in
  (List.NoDup (dict_keys out) -> List.NoDup (dict_keys out'))
  /\ (forall k, In k (dict_keys out')
                <-> In k (dict_keys out) \/ In k (map new_key (dict_keys row)))
  /\ ((forall k v, dict_get k out = Some v -> json_safe v = true) ->
      forall k v, dict_get k out' = Some v -> json_safe v = true)
  /\ (List.length out' <= List.length out + List.length row)%nat.
Proof.
  revert out. induction row as [|[k0 v0] row IH]; intros out; cbn zeta; simpl.
  - repeat split; auto; try tauto. lia.
  - specialize (IH (dict_set (new_key k0) (_serialize_value v0) out)).
    cbn zeta in IH. destruct IH as [IH1 [IH2 [IH3 IH4]]].
    split; [|split; [|split]].
    + intros H. apply IH1. now apply dict_set_nodup.
    + intros k. rewrite IH2.
      destruct (dict_keys_set (new_key k0) (_serialize_value v0) out)
        as [[Hin ->]|[Hnin ->]].
      * split; [tauto|]. intros [H|[<-|H]]; tauto.
      * rewrite in_app_iff. simpl. tauto.
    + intros H. apply IH3. intros k v. rewrite dict_get_set.
      destruct (String.eqb (new_key k0) k); [|apply H].
      intros [= <-]. apply serialize_value_safe.
    + assert (List.length (dict_set (new_key k0) (_serialize_value v0) out)
              <= S (List.length out))%nat.
      { pose proof (f_equal (@List.length string)) as F.
        destruct (dict_keys_set (new_key k0) (_serialize_value v0) out)
          as [[_ Hk]|[_ Hk]]; apply F in Hk; unfold dict_keys in Hk;
          rewrite ?length_app, !length_map in Hk; simpl in Hk; lia. }
      lia.
Qed.

(** X16.  Whatever the row, the result of [serialize_row_rename_image] is
    a dictionary again (no key twice), has no key [image_url], has
    exactly the renamed keys of the row, holds only values that need no
    further conversion, and has no more items than the row. *)
Theorem serialize_row_shape (row : dict) :
  List.NoDup (dict_keys (serialize_row_rename_image row))
  /\ ~ In "image_url" (dict_keys (serialize_row_rename_image row))
  /\ (forall k, In k (dict_keys (serialize_row_rename_image row))
                <-> In k (map new_key (dict_keys row)))
  /\ (forall k v, dict_get k (serialize_row_rename_image row) = Some v ->
                  json_safe v = true)
  /\ (List.length (serialize_row_rename_image row) <= List.length row)%nat.
Proof.
  destruct (serialize_row_invariant row []) as [H1 [H2 [H3 H4]]].
  cbn zeta in *. fold (serialize_row_rename_image row) in *.
  assert (Hkeys : forall k, In k (dict_keys (serialize_row_rename_image row))
                            <-> In k (map new_key (dict_keys row))).
  { intros k. rewrite H2. simpl. tauto. }
  split; [apply H1; constructor|].
  split.
  { rewrite Hkeys. intros Hin. apply in_map_iff in Hin.
    destruct Hin as [k [Hk _]]. exact (new_key_not_image_url k Hk). }
  split; [exact Hkeys|].
  split; [apply H3; intros k v; discriminate | exact H4].
Qed.

Lemma last_write_wins_from (row out : dict) (k : string) :
  dict_get k
    (fold_left (fun out kv =>
                  dict_set (new_key (fst kv)) (_serialize_value (snd kv)) out)
               row out)
  = match dict_get k (rev (map serialized_item row)) with
    | Some v => Some v
    | None => dict_get k out
    end.
Proof.
  revert out. induction row as [|[k0 v0] row IH]; intros out; simpl;
    [reflexivity|].
  rewrite IH, dict_get_app, dict_get_set. simpl.
  destruct (dict_get k (rev (map serialized_item row))); [reflexivity|].
  destruct (String.eqb (new_key k0) k); reflexivity.
Qed.

Lemma serialize_row_plain_key_from (row out : dict) (k : string) :
  k <> "image_url" -> k <> "imageUrl" ->
  List.NoDup (dict_keys row) ->
  dict_get k
    (fold_left (fun out kv =>
                  dict_set (new_key (fst kv)) (_serialize_value (snd kv)) out)
               row out)
  = match dict_get k row with
    | Some v => Some (_serialize_value v)
    | None => dict_get k out
    end.
Proof.
  intros Hk1 Hk2. revert out.
  induction row as [|[k0 v0] row IH]; intros out Hnd; simpl; [reflexivity|].
  simpl in Hnd. apply NoDup_cons_iff in Hnd. destruct Hnd as [Hfresh Hnd].
  rewrite (IH _ Hnd), dict_get_set.
  destruct (String.eqb_spec k0 k) as [E|E].
  - subst k0. rewrite (dict_get_absent k row Hfresh).
    unfold new_key. destruct (String.eqb_spec k "image_url"); [contradiction|].
    now rewrite String.eqb_refl.
  - assert (Hnk : new_key k0 <> k).
    { unfold new_key. destruct (String.eqb_spec k0 "image_url"); congruence. }
    apply String.eqb_neq in Hnk. rewrite Hnk. reflexivity.
Qed.

(** X17.  When several items of a row are written under one key, the last
    one wins: a lookup in the result of [serialize_row_rename_image] finds
    what a lookup from the end of the row, items renamed and serialized,
    finds.  A field that is neither [image_url] nor [imageUrl] is never
    affected: in a row with no key twice it keeps its name and takes its
    serialized value, also when the row holds both spellings of the image
    field. *)
Theorem serialize_row_last_wins (row : dict) (k : string) :
  dict_get k (serialize_row_rename_image row)
  = dict_get k (rev (map serialized_item row))
  /\ (k <> "image_url" -> k <> "imageUrl" -> List.NoDup (dict_keys row) ->
      dict_get k (serialize_row_rename_image row)
      = option_map _serialize_value (dict_get k row)).
Proof.
  split.
  - unfold serialize_row_rename_image. rewrite last_write_wins_from.
    now destruct (dict_get k _).
  - intros Hk1 Hk2 Hnd. unfold serialize_row_rename_image.
    rewrite (serialize_row_plain_key_from row [] k Hk1 Hk2 Hnd).
    now destruct (dict_get k row).
Qed.

Lemma serialize_row_last_wins_witness :
  "title" <> "image_url" /\ "title" <> "imageUrl"
  /\ List.NoDup (dict_keys (("title", VStr "t") :: collision_row))
  /\ dict_get "title"
       (serialize_row_rename_image (("title", VStr "t") :: collision_row))
     = option_map _serialize_value
         (dict_get "title" (("title", VStr "t") :: collision_row)).
Proof.
  assert (H1 : "title" <> "image_url") by discriminate.
  assert (H2 : "title" <> "imageUrl") by discriminate.
  assert (H3 : List.NoDup (dict_keys (("title", VStr "t") :: collision_row))).
  { repeat (apply List.NoDup_cons; [simpl; intuition discriminate|]).
    apply List.NoDup_nil. }
  split; [exact H1|]. split; [exact H2|]. split; [exact H3|].
  exact (proj2 (serialize_row_last_wins (("title", VStr "t") :: collision_row)
                  "title") H1 H2 H3).
Defined.

(** ** Dates *)

Lemma read_two_digits (n : N) :
  (n < 100)%N -> read_digits 0 (two_digits n) = n.
Proof.
  intros Hn. apply N.eqb_eq.
  apply (forall_below 100 (fun n => N.eqb (read_digits 0 (two_digits n)) n));
    [vm_compute; reflexivity | exact Hn].
Qed.

Lemma read_four_digits (n : N) :
  (n < 10000)%N -> read_digits 0 (four_digits n) = n.
Proof.
  intros Hn. apply N.eqb_eq.
  apply (forall_below 10000 (fun n => N.eqb (read_digits 0 (four_digits n)) n));
    [vm_compute; reflexivity | exact Hn].
Qed.

Lemma read_date_iso8601 (d : date) :
  date_in_range d -> read_date (iso8601_date d) = d.
Proof.
  intros [Hy [Hm Hd]]. destruct d as [y m dd]. simpl in *.
  unfold read_date.
  change (substring 0 4 (iso8601_date {| year := y; month := m; day := dd |}))
    with (four_digits y).
  change (substring 5 2 (iso8601_date {| year := y; month := m; day := dd |}))
    with (two_digits m).
  change (substring 8 2 (iso8601_date {| year := y; month := m; day := dd |}))
    with (two_digits dd).
  rewrite read_four_digits, !read_two_digits by lia. reflexivity.
Qed.

(** X18.  For the fields of a calendar day, [date.isoformat()] gives ten
    characters, and two days have the same string only when they are the
    same day. *)
Theorem date_isoformat_injective (d1 d2 : date) :
  date_in_range d1 -> date_in_range d2 ->
  String.length (date_isoformat d1) = 10%nat
  /\ (date_isoformat d1 = date_isoformat d2 -> d1 = d2).
Proof.
  intros H1 H2. rewrite !date_isoformat_iso8601 by assumption.
  split; [reflexivity|].
  intros E. rewrite <- (read_date_iso8601 d1 H1), <- (read_date_iso8601 d2 H2).
  now rewrite E.
Qed.

Lemma sample_dates_in_range :
  date_in_range {| year := 2024; month := 1; day := 1 |}
  /\ date_in_range {| year := 2024; month := 6; day := 30 |}.
Proof. unfold date_in_range; simpl. repeat split; discriminate. Defined.

Lemma date_isoformat_injective_witness :
  date_in_range {| year := 2024; month := 1; day := 1 |}
  /\ date_in_range {| year := 2024; month := 6; day := 30 |}
  /\ String.length (date_isoformat {| year := 2024; month := 1; day := 1 |})
     = 10%nat
  /\ (date_isoformat {| year := 2024; month := 1; day := 1 |}
      = date_isoformat {| year := 2024; month := 6; day := 30 |} ->
      {| year := 2024; month := 1; day := 1 |}
      = {| year := 2024; month := 6; day := 30 |}).
Proof.
  split; [exact (proj1 sample_dates_in_range)|].
  split; [exact (proj2 sample_dates_in_range)|].
  exact (date_isoformat_injective _ _ (proj1 sample_dates_in_range)
           (proj2 sample_dates_in_range)).
Defined.

(* ===================================================================== *)
(** * Properties of the configuration *)
(* ===================================================================== *)

Lemma env_first_cons (env : gmap string string) (k : string)
    (rest : list string) :
  env_first env (k :: rest)
  = if unset env k then env_first env rest else env !! k.
Proof.
  unfold unset; simpl. destruct (env !! k) as [v|]; [|reflexivity].
  destruct (String.eqb v ""); reflexivity.
Qed.

Lemma env_first_not_empty (env : gmap string string) (keys : list string) :
  env_first env keys <> Some "".
Proof.
  induction keys as [|k keys IH]; [discriminate|].
  rewrite env_first_cons. destruct (unset env k) eqn:Hk; [exact IH|].
  unfold unset in Hk. destruct (env !! k) as [v|]; [|discriminate].
  intros [= ->]. discriminate.
Qed.

(** X19.  [env_first] returns the value of the first name in the list
    that is set to a string that is not empty: a name that is set to the
    empty string is passed over like one that is not set.  It returns
    [None] exactly when no name of the list has such a value, and never
    the empty string. *)
Theorem env_first_first_set (env : gmap string string) (keys : list string) :
  (forall v,
     env_first env keys = Some v <->
     exists before k after,
       keys = (before ++ k :: after)%list
       /\ (forall k', In k' before -> unset env k' = true)
       /\ env !! k = Some v /\ v <> "")
  /\ (env_first env keys = None <-> forall k, In k keys -> unset env k = true)
  /\ env_first env keys <> Some "".
Proof.
  induction keys as [|k keys [IH1 [IH2 IH3]]].
  - split; [|split]; simpl.
    + intros v. split; [discriminate|].
      intros [before [k [after [H _]]]]. now destruct before.
    + split; [intros _ k [] | reflexivity].
    + discriminate.
  - rewrite env_first_cons. destruct (unset env k) eqn:Hk.
    + split; [|split].
      * intros v. rewrite IH1. split.
        -- intros [before [k0 [after [-> [Hb Hv]]]]].
           exists (k :: before), k0, after. split; [reflexivity|].
           split; [|exact Hv]. intros k' [<-|Hin]; auto.
        -- intros [before [k0 [after [E [Hb [Hv Hne]]]]]].
           destruct before as [|b before]; simpl in E; injection E as <- ->.
           ++ exfalso. unfold unset in Hk. rewrite Hv in Hk.
              apply String.eqb_eq in Hk. contradiction.
           ++ exists before, k0, after. split; [reflexivity|].
              split; [|tauto]. intros k' Hin. apply Hb. now right.
      * rewrite IH2. split.
        -- intros H k' [<-|Hin]; auto.
        -- intros H k' Hin. apply H. now right.
      * exact IH3.
    + assert (Hv : exists v, env !! k = Some v /\ v <> "").
      { unfold unset in Hk. destruct (env !! k) as [v|]; [|discriminate].
        exists v. split; [reflexivity|]. now apply String.eqb_neq. }
      destruct Hv as [v0 [Hv0 Hne0]]. rewrite Hv0.
      split; [|split].
      * intros v. split.
        -- intros [= <-]. exists [], k, keys.
           split; [reflexivity|]. split; [intros k' []|].
           split; [exact Hv0 | exact Hne0].
        -- intros [before [k0 [after [E [Hb [Hv Hne]]]]]].
           destruct before as [|b before]; simpl in E; injection E as <- ->.
           ++ congruence.
           ++ rewrite (Hb k (or_introl eq_refl)) in Hk. discriminate.
      * split; [discriminate|]. intros H.
        rewrite (H k (or_introl eq_refl)) in Hk. discriminate.
      * congruence.
Qed.

Lemma not_set_env_first (env : gmap string string) (a b : string) :
  not_set (env_first env [a; b]) = unset env a && unset env b.
Proof.
  rewrite !env_first_cons. simpl.
  destruct (unset env a) eqn:Ha; simpl.
  - destruct (unset env b) eqn:Hb; [reflexivity|].
    unfold unset in Hb. now destruct (env !! b).
  - unfold unset in Ha. now destruct (env !! a).
Qed.

(** X20.  The check at start-up passes exactly when each of the five
    settings has a value that is not empty under its [PG] name or under
    its short name.  Otherwise the error lists, in the order user,
    password, host, port, dbname, exactly the settings that have neither;
    and a setting with both names set takes the value of the [PG] name. *)
Theorem check_db_config_passes_iff (env : gmap string string) :
  missing env
  = map fst (List.filter
               (fun s => unset env (fst (snd s)) && unset env (snd (snd s)))
               setting_names)
  /\ ((exists config, check_db_config env = inr config)
      <-> forall s, In s setting_names ->
                    unset env (fst (snd s)) = false
                    \/ unset env (snd (snd s)) = false)
  /\ (forall config, check_db_config env = inr config ->
                     config = DB_CONFIG env
                     /\ forall k v, In (k, v) config ->
                                    exists s, v = Some s /\ s <> "")
  /\ (forall m, check_db_config env = inl m -> m = missing env /\ m <> [])
  /\ (forall s, In s setting_names ->
                unset env (fst (snd s)) = false ->
                In (fst s, env !! fst (snd s)) (DB_CONFIG env)).
Proof.
  assert (Hmissing :
    missing env
    = map fst (List.filter
                 (fun s => unset env (fst (snd s)) && unset env (snd (snd s)))
                 setting_names)).
  { unfold missing, DB_CONFIG, setting_names. cbn [List.filter snd fst].
    rewrite !not_set_env_first.
    destruct (unset env "PGUSER" && unset env "user");
      destruct (unset env "PGPASSWORD" && unset env "password");
      destruct (unset env "PGHOST" && unset env "host");
      destruct (unset env "PGPORT" && unset env "port");
      destruct (unset env "PGDATABASE" && unset env "dbname"); reflexivity. }
  assert (Hnil :
    missing env = [] <->
    forall s, In s setting_names ->
              unset env (fst (snd s)) = false \/ unset env (snd (snd s)) = false).
  { rewrite Hmissing. split.
    - intros H s Hs.
      destruct (unset env (fst (snd s)) && unset env (snd (snd s))) eqn:E.
      + exfalso.
        assert (Hin : In (fst s)
                        (map fst (List.filter
                           (fun s => unset env (fst (snd s))
                                     && unset env (snd (snd s)))
                           setting_names))).
        { apply in_map. apply filter_In. split; assumption. }
        rewrite H in Hin. destruct Hin.
      + apply andb_false_iff in E. exact E.
    - intros H.
      destruct (List.filter _ setting_names) as [|s l] eqn:E; [reflexivity|].
      assert (Hs : In s (List.filter
                           (fun s => unset env (fst (snd s))
                                     && unset env (snd (snd s)))
                           setting_names)) by (rewrite E; now left).
      apply filter_In in Hs. destruct Hs as [Hs Hb].
      apply andb_true_iff in Hb. destruct (H s Hs); destruct Hb; congruence. }
  split; [exact Hmissing|].
  split.
  { rewrite <- Hnil. unfold check_db_config.
    destruct (missing env); split; eauto; try discriminate.
    intros [config H]. discriminate. }
  split.
  { intros config. unfold check_db_config.
    destruct (missing env) as [|m0 m] eqn:Hm; [|discriminate].
    intros [= <-]. split; [reflexivity|].
    intros k v Hin.
    destruct v as [s|].
    - exists s. split; [reflexivity|]. intros ->.
      unfold DB_CONFIG in Hin. cbn [In] in Hin.
      pose proof (env_first_not_empty env) as Hne.
      repeat (destruct Hin as [Hin|Hin];
              [exact (Hne _ (f_equal snd Hin))|]).
      destruct Hin.
    - exfalso.
      assert (Hk : In k (missing env)).
      { unfold missing. apply in_map_iff. exists (k, None).
        split; [reflexivity|]. apply filter_In. split; [exact Hin | reflexivity]. }
      rewrite Hm in Hk. destruct Hk. }
  split.
  { intros m. unfold check_db_config.
    destruct (missing env) as [|m0 m1]; [discriminate|].
    intros [= <-]. split; [reflexivity | discriminate]. }
  intros s Hs Hpg. unfold setting_names in Hs. unfold DB_CONFIG.
  cbn [In] in Hs.
  repeat (destruct Hs as [<-|Hs];
          [cbn [fst snd] in *;
           match type of Hpg with
           | unset env ?pg = false => rewrite (env_first_cons env pg), Hpg
           end; cbn [In]; auto 10|]).
  destruct Hs.
Qed.

Lemma check_db_config_passes_iff_witness :
  (forall s, In s setting_names ->
             unset sample_env (fst (snd s)) = false
             \/ unset sample_env (snd (snd s)) = false)
  /\ (exists config, check_db_config sample_env = inr config)
  /\ unset sample_env "PGPASSWORD" = false
  /\ In ("password", sample_env !! "PGPASSWORD") (DB_CONFIG sample_env).
Proof.
  assert (H : forall s, In s setting_names ->
                        unset sample_env (fst (snd s)) = false
                        \/ unset sample_env (snd (snd s)) = false).
  { intros s Hs. unfold setting_names in Hs. cbn [In] in Hs.
    destruct Hs as [<-|[<-|[<-|[<-|[<-|[]]]]]];
      [right | left | left | left | left]; vm_compute; reflexivity. }
  assert (Hpw : unset sample_env "PGPASSWORD" = false)
    by (vm_compute; reflexivity).
  destruct (check_db_config_passes_iff sample_env) as [_ [Hiff [_ [_ Hpg]]]].
  split; [exact H|].
  split; [exact (proj2 Hiff H)|].
  split; [exact Hpw|].
  exact (Hpg ("password", ("PGPASSWORD", "password"))
           (or_intror (or_introl eq_refl)) Hpw).
Defined.

(* ===================================================================== *)
(** * Properties of the content handlers *)
(* ===================================================================== *)

Section KeyedTable.
Context {A : Type} (key : A -> string).

(** The existence check on a key column: a row comes back exactly when
    the key is in the table. *)
Lemma fetchone_key_absent (k : string) (l : list A) :
  ~ In k (map key l) ->
  fetchone (map (fun _ => 1) (List.filter (fun r => String.eqb (key r) k) l))
  = None.
Proof.
  intros H. rewrite fetchone_where, find_absent; [reflexivity|].
  intros r Hr. apply String.eqb_neq. intros E. apply H. rewrite <- E.
  now apply in_map.
Qed.

Lemma fetchone_key_present (k : string) (l : list A) :
  In k (map key l) ->
  fetchone (map (fun _ => 1) (List.filter (fun r => String.eqb (key r) k) l))
  = Some 1.
Proof.
  intros H. apply in_map_iff in H. destruct H as [r [E Hr]].
  rewrite fetchone_where.
  destruct (find_present (fun r => String.eqb (key r) k) l r Hr) as [r0 ->];
    [now apply String.eqb_eq | reflexivity].
Qed.

Lemma keys_appended_distinct (l : list A) (r : A) :
  List.NoDup (map key l) -> ~ In (key r) (map key l) ->
  List.NoDup (map key (l ++ [r])).
Proof.
  intros Hnd Hfresh. rewrite map_app. apply List.NoDup_app; [exact Hnd | |].
  - apply List.NoDup_cons; [simpl; tauto | constructor].
  - intros x Hx [<-|[]]. contradiction.
Qed.

Lemma keys_filtered_distinct (f : A -> bool) (l : list A) :
  List.NoDup (map key l) -> List.NoDup (map key (List.filter f l)).
Proof.
  induction l as [|a l IH]; simpl; intros H; [constructor|].
  apply NoDup_cons_iff in H. destruct H as [Ha H].
  destruct (f a); simpl; [|auto].
  apply List.NoDup_cons; [|auto].
  intros Hin. apply Ha. apply in_map_iff in Hin.
  destruct Hin as [x [E Hx]]. apply filter_In in Hx. rewrite <- E.
  apply in_map. tauto.
Qed.
End KeyedTable.


(** Unfolds a content handler down to the round trips it makes. *)
Ltac unfold_handler_on :=
  unfold add_blog, edit_blog, delete_blog, add_bill, add_letter, get_blogs,
    reraise_as_500_on, any_exception_as_500_on, with_get_db_on, bind_on,
    ret_on, raise_on, execute_on, commit_on, rollback_on, clean_on in *.

(** X21.  The content handlers that check a key before they write keep
    the keys unique, whatever round trips fail: when the slugs of the
    blogs, the numbers of the bills and the reference numbers of the
    letters are pairwise distinct, they still are after [add_blog],
    [add_bill], [add_letter] and [delete_blog]. *)
Theorem unique_keys_kept (s : cms) (fs : list outcome) :
  unique_keys s ->
  (forall id request,
     unique_keys (on_storage (snd (add_blog id request
                                     {| on_storage := s; on_faults := fs |}))))
  /\ (forall to_decimal id request,
        unique_keys (on_storage (snd (add_bill to_decimal id request
                                        {| on_storage := s; on_faults := fs |}))))
  /\ (forall id request,
        unique_keys (on_storage (snd (add_letter id request
                                        {| on_storage := s; on_faults := fs |}))))
  /\ (forall slug,
        unique_keys (on_storage (snd (delete_blog slug
                                        {| on_storage := s; on_faults := fs |})))).
Proof.
  intros [Hb [Hn Hl]].
  split; [|split; [|split]].
  - intros id request.
    destruct (in_dec string_dec (bcr_slug request) (map blog_slug (blogs s)))
      as [Hin|Hnin].
    + pose proof (fetchone_key_present blog_slug _ _ Hin) as Hq.
      unfold_handler_on. cbn.
      six_outcomes fs; rewrite ?Hq; cbn; repeat split; assumption.
    + pose proof (fetchone_key_absent blog_slug _ _ Hnin) as Hq.
      assert (Hnew : List.NoDup (map blog_slug
                                   (blogs s ++ [new_blog_row id request])))
        by (now apply keys_appended_distinct).
      unfold_handler_on. cbn.
      six_outcomes fs; rewrite ?Hq; cbn; repeat split; assumption.
  - intros to_decimal id request.
    destruct (in_dec string_dec (full_bill_no request) (map bill_no (bills s)))
      as [Hin|Hnin].
    + pose proof (fetchone_key_present bill_no _ _ Hin) as Hq.
      unfold_handler_on. cbn.
      six_outcomes fs; rewrite ?Hq; cbn; repeat split; assumption.
    + pose proof (fetchone_key_absent bill_no _ _ Hnin) as Hq.
      assert (Hnew : List.NoDup
                       (map bill_no
                          (bills s ++ [new_bill_row to_decimal id request])))
        by (now apply keys_appended_distinct).
      unfold_handler_on. cbn.
      six_outcomes fs; rewrite ?Hq; cbn; repeat split; assumption.
  - intros id request.
    destruct (in_dec string_dec (lcr_ref_number request)
                (map letter_ref_number (letterheads s))) as [Hin|Hnin].
    + pose proof (fetchone_key_present letter_ref_number _ _ Hin) as Hq.
      unfold_handler_on. cbn.
      six_outcomes fs; rewrite ?Hq; cbn; repeat split; assumption.
    + pose proof (fetchone_key_absent letter_ref_number _ _ Hnin) as Hq.
      assert (Hnew : List.NoDup
                       (map letter_ref_number
                          (letterheads s ++ [new_letter_row id request])))
        by (now apply keys_appended_distinct).
      unfold_handler_on. cbn.
      six_outcomes fs; rewrite ?Hq; cbn; repeat split; assumption.
  - intros slug.
    assert (Hdel : List.NoDup
                     (map blog_slug
                        (List.filter
                           (fun r => negb (String.eqb (blog_slug r) slug))
                           (blogs s))))
      by (now apply keys_filtered_distinct).
    destruct (in_dec string_dec slug (map blog_slug (blogs s))) as [Hin|Hnin].
    + pose proof (fetchone_key_present blog_slug _ _ Hin) as Hq.
      unfold_handler_on. cbn.
      six_outcomes fs; rewrite ?Hq; cbn; repeat split; assumption.
    + pose proof (fetchone_key_absent blog_slug _ _ Hnin) as Hq.
      unfold_handler_on. cbn.
      six_outcomes fs; rewrite ?Hq; cbn; repeat split; assumption.
Qed.

Lemma sample_cms_unique : unique_keys sample_cms.
Proof.
  unfold unique_keys; simpl.
  split; [|split; constructor].
  apply List.NoDup_cons; [simpl; tauto | constructor].
Defined.

Lemma unique_keys_kept_witness :
  unique_keys sample_cms
  /\ unique_keys
       (on_storage (snd (add_blog 2 (sample_blog_request "news")
                           {| on_storage := sample_cms;
                              on_faults := [Ok; Ok; Ok; Ok] |})))
  /\ unique_keys
       (on_storage (snd (delete_blog "hello"
                           {| on_storage := sample_cms;
                              on_faults := [Ok; Ok; Ok; Ok] |}))).
Proof.
  split; [exact sample_cms_unique|].
  destruct (unique_keys_kept sample_cms [Ok; Ok; Ok; Ok] sample_cms_unique)
    as [Hadd [_ [_ Hdel]]].
  split; [exact (Hadd 2 (sample_blog_request "news")) | exact (Hdel "hello")].
Defined.









(** ** The list of blogs *)

Lemma insert_by_date_permutation (r : blog_row) (l : list blog_row) :
  Permutation (r :: l) (insert_by_date r l).
Proof.
  induction l as [|r' l IH]; simpl; [reflexivity|].
  destruct (date_leb (blog_date r') (blog_date r)); [reflexivity|].
  rewrite perm_swap. now apply perm_skip.
Qed.

Lemma sort_by_date_desc_permutation (l : list blog_row) :
  Permutation l (sort_by_date_desc l).
Proof.
  induction l as [|r l IH]; simpl; [reflexivity|].
  rewrite <- insert_by_date_permutation. now apply perm_skip.
Qed.

(** The serialized form of a row of the blogs query: the columns of the
    SELECT list in their order, [image_url] under the key [imageUrl], the
    date as a string. *)
Lemma serialize_blog_row (r : blog_row) :
  serialize_row_rename_image (blog_row_dict r)
  = [("id", VInt (blog_id r)); ("title", VStr (blog_title r));
     ("slug", VStr (blog_slug r)); ("excerpt", VStr (blog_excerpt r));
     ("content", VStr (blog_content r));
     ("imageUrl", VStr (blog_image_url r));
     ("date", VStr (date_isoformat (blog_date r)))].
Proof. reflexivity. Qed.

(** X25.  [get_blogs] only reads.  When the server returns the rows of
    the table in some order, a run in which no round trip fails returns
    one dictionary for each blog, with the keys id, title, slug, excerpt,
    content, imageUrl and date in that order: the image address is under
    [imageUrl], there is no key [image_url], and the date is its ISO
    string.  Whatever round trips fail, the store is as it was and the
    handler raises a 500 or returns that list. *)
Theorem get_blogs_rows (order_by : list blog_row -> list blog_row) (s : cms)
    (fs : list outcome) :
  (forall l, Permutation l (order_by l)) ->
  get_blogs order_by (clean_on s)
  = (inr (map (fun r => serialize_row_rename_image (blog_row_dict r))
            (order_by (blogs s))), clean_on s)
  /\ List.length (order_by (blogs s)) = List.length (blogs s)
  /\ (forall r, In r (blogs s) <-> In r (order_by (blogs s)))
  /\ (forall r,
        dict_keys (serialize_row_rename_image (blog_row_dict r))
        = ["id"; "title"; "slug"; "excerpt"; "content"; "imageUrl"; "date"]
        /\ dict_get "imageUrl" (serialize_row_rename_image (blog_row_dict r))
           = Some (VStr (blog_image_url r))
        /\ dict_get "image_url" (serialize_row_rename_image (blog_row_dict r))
           = None
        /\ dict_get "date" (serialize_row_rename_image (blog_row_dict r))
           = Some (VStr (date_isoformat (blog_date r))))
  /\ (let '(r, w') :=
        get_blogs order_by {| on_storage := s; on_faults := fs |} in
      on_storage w' = s
      /\ ((exists detail, r = inl (HTTPException InternalError detail))
          \/ r = inr (map (fun r => serialize_row_rename_image (blog_row_dict r))
                        (order_by (blogs s))))).
Proof.
  intros Hperm.
  split; [reflexivity|].
  split; [symmetry; apply Permutation_length, Hperm|].
  split.
  { intros r. split; intros H.
    - now apply (Permutation_in _ (Hperm (blogs s))).
    - now apply (Permutation_in _ (Permutation_sym (Hperm (blogs s)))). }
  split.
  { intros r. rewrite serialize_blog_row. repeat split; reflexivity. }
  unfold InternalError. unfold_handler_on. unfold select_blogs. cbn.
  six_outcomes fs; (split; [reflexivity | eauto]).
Qed.

Lemma get_blogs_rows_witness :
  (forall l, Permutation l (sort_by_date_desc l))
  /\ get_blogs sort_by_date_desc (clean_on sample_cms)
     = (inr (map (fun r => serialize_row_rename_image (blog_row_dict r))
               (sort_by_date_desc (blogs sample_cms))), clean_on sample_cms)
  /\ List.length (sort_by_date_desc (blogs sample_cms))
     = List.length (blogs sample_cms).
Proof.
  split; [exact sort_by_date_desc_permutation|].
  destruct (get_blogs_rows sort_by_date_desc sample_cms []
              sort_by_date_desc_permutation) as [H1 [H2 _]].
  split; [exact H1 | exact H2].
Defined.
